(** * kukareku: a cross-exchange arbitrage executor

    Shallow embedding of the live trading path of the repository

      - [config.py]                          (module [Config])
      - [order_manager.py]                   (module [OrderManager])
      - [websocket_manager.py]               (module [WebSocketManager])
      - [advanced_test_bot.py]               (module [ArbitrageBot])
      - [arbitrage_bot/telegram_monitor.py]  (module [TelegramMonitor])

    and the properties of the specification that concern it.

    Conventions of the embedding.

    - Python [float]s are modelled by exact rationals [Q]; a literal such
      as [0.0007] is the rational [7/10000].  Rounding is not modelled.
    - A Python dictionary is a [gmap]; where the insertion order is
      observable (the [prices] dictionary of a signal) it is an
      association list.
    - Dictionaries that are shared by reference (the trade records held
      in [active_trades] and, at the same time, in local variables of the
      monitoring coroutine) live in an explicit store of objects.
    - Calls that leave the process (exchange API, clocks, price stream)
      are answered by an oracle, the record [World].
    - Exceptions are explicit: a coroutine returns an [outcome]. *)

From Stdlib Require Import QArith Qminmax Ascii String.
From stdpp Require Import gmap strings list fin_maps pretty.

Local Open Scope Q_scope.

(** ** Python numbers and truthiness *)

Definition Qltb (x y : Q) : bool := negb (Qle_bool y x).
Definition Qleb (x y : Q) : bool := Qle_bool x y.

(** [max(a, b)] of the Python builtins: the first argument wins a tie. *)
Definition py_max (a b : Q) : Q := if Qltb a b then b else a.

(** Truth value of an [Optional[float]]: [None] and [0.0] are false. *)
Definition truthy (x : option Q) : bool :=
  match x with
  | Some v => negb (Qeq_bool v 0)
  | None => false
  end.

(** Exceptions that the modelled code can raise. *)
Inductive exn :=
  | NameError (name : string)
  | ZeroDivisionError
  | ValueError.

Inductive outcome :=
  | Returned
  | Raised (e : exn).

(** ** config.py *)

Module Config.

Record t := {
  LEVERAGE : Q;
  MAX_CONCURRENT_TRADES : nat;
  MIN_SPREAD : Q;
  MAX_MIN_NOTIONAL_USD : Q;
  TRADE_AMOUNT : Q;
  CLOSE_SPREAD : Q;
  MAX_ALLOWED_SPREAD : Q;
  SPREAD_SANITY_CHECK : bool;
  TRAILING_STOP_ENABLED : bool;
  MAX_HOLD_TIME : Q;
  MAX_DAILY_LOSS : Q;
  RISKY_SYMBOLS : gmap string Q;
  SYMBOL_BLACKLIST : gset string
}.

(** The values that [config.py] ships. *)
Definition shipped : t := {|
  LEVERAGE := 3;
  MAX_CONCURRENT_TRADES := 3;
  MIN_SPREAD := 3;
  MAX_MIN_NOTIONAL_USD := 4;
  TRADE_AMOUNT := 1;
  CLOSE_SPREAD := 1 # 2;
  MAX_ALLOWED_SPREAD := 50;
  SPREAD_SANITY_CHECK := true;
  TRAILING_STOP_ENABLED := true;
  MAX_HOLD_TIME := 6000;
  MAX_DAILY_LOSS := 8;
  RISKY_SYMBOLS :=
    <["0G" := 1 # 2]> (<["XNL" := 3 # 10]> (<["MET" := 7 # 10]>
      (<["PIGGY" := 6 # 10]> ∅)));
  SYMBOL_BLACKLIST := {["AIA"]}
|}.

End Config.

(** ** order_manager.py *)

Module OrderManager.

Inductive side := buy | sell.

(** The values taken by [trade['status']]. *)
Inductive status := st_open | st_closing | st_closed | st_error_closing.

Global Instance status_eq_dec : EqDecision status.
Proof. solve_decision. Defined.

(** What the code reads from an order returned by the exchange. *)
Record Order := { order_id : string; order_price : Q }.

(** What the code reads from [exchange.market(symbol)]:
    [limits.cost.min] and [limits.amount.min], either of which may be
    absent or [None]. *)
Record Market := { cost_min : option Q; amount_min : option Q }.

(** [d.get('min', 0.0) or 0.0] *)
Definition or_zero (x : option Q) : Q := default 0 x.

(** The dictionary stored in [active_trades]; [net_pnl] is absent until
    the trade is closed. *)
Record Trade := {
  symbol : string;
  entry_spread : Q;
  low_exchange : string;
  high_exchange : string;
  entry_buy_price : Q;
  entry_sell_price : Q;
  quantity : Q;
  trade_status : status;
  entry_time : Q;
  max_spread_seen : Q;
  net_pnl : option Q
}.

Definition with_status (s : status) (tr : Trade) : Trade :=
  {| symbol := symbol tr; entry_spread := entry_spread tr;
     low_exchange := low_exchange tr; high_exchange := high_exchange tr;
     entry_buy_price := entry_buy_price tr;
     entry_sell_price := entry_sell_price tr; quantity := quantity tr;
     trade_status := s; entry_time := entry_time tr;
     max_spread_seen := max_spread_seen tr; net_pnl := net_pnl tr |}.

(** [trade.update({'status': 'closed', 'net_pnl': net})] *)
Definition with_closed (net : Q) (tr : Trade) : Trade :=
  {| symbol := symbol tr; entry_spread := entry_spread tr;
     low_exchange := low_exchange tr; high_exchange := high_exchange tr;
     entry_buy_price := entry_buy_price tr;
     entry_sell_price := entry_sell_price tr; quantity := quantity tr;
     trade_status := st_closed; entry_time := entry_time tr;
     max_spread_seen := max_spread_seen tr; net_pnl := Some net |}.

(** Requests that reach an exchange, in the order they are sent. *)
Inductive call :=
  | CreateOrder (ex sym : string) (sd : side) (qty px : Q)
                (position_side : option string)
  | CancelOrder (ex id sym : string).

(** The [OrderManager] object.  [objects] is the store of trade
    dictionaries; [active_trades] maps a trade id to the dictionary it
    references, so that a coroutine holding [trade] and the registry
    see the same mutations. *)
Record t := {
  exchanges : gset string;
  objects : gmap nat Trade;
  next_object : nat;
  active_trades : gmap string nat;
  daily_pnl : Q;
  calls : list call;
  tasks : list string
}.

(** [OrderManager.__init__], with the exchanges that [connect] reached. *)
Definition init (connected : gset string) : t :=
  {| exchanges := connected; objects := ∅; next_object := 0;
     active_trades := ∅; daily_pnl := 0; calls := []; tasks := [] |}.

Definition log_call (c : call) (om : t) : t :=
  {| exchanges := exchanges om; objects := objects om;
     next_object := next_object om; active_trades := active_trades om;
     daily_pnl := daily_pnl om; calls := calls om ++ [c];
     tasks := tasks om |}.

Definition update_object (f : Trade → Trade) (loc : nat) (om : t) : t :=
  {| exchanges := exchanges om; objects := alter f loc (objects om);
     next_object := next_object om; active_trades := active_trades om;
     daily_pnl := daily_pnl om; calls := calls om; tasks := tasks om |}.

Definition add_daily_pnl (x : Q) (om : t) : t :=
  {| exchanges := exchanges om; objects := objects om;
     next_object := next_object om; active_trades := active_trades om;
     daily_pnl := daily_pnl om + x; calls := calls om; tasks := tasks om |}.

(** [self.active_trades[trade_id] = {...}] followed by
    [asyncio.create_task(self.monitor_trade(trade_id))]. *)
Definition register (trade_id : string) (tr : Trade) (om : t) : t :=
  {| exchanges := exchanges om;
     objects := <[next_object om := tr]> (objects om);
     next_object := S (next_object om);
     active_trades := <[trade_id := next_object om]> (active_trades om);
     daily_pnl := daily_pnl om; calls := calls om;
     tasks := tasks om ++ [trade_id] |}.

Definition pop_trade (trade_id : string) (om : t) : t :=
  {| exchanges := exchanges om; objects := objects om;
     next_object := next_object om;
     active_trades := delete trade_id (active_trades om);
     daily_pnl := daily_pnl om; calls := calls om; tasks := tasks om |}.

(** Everything outside the process, as seen during one activation. *)
Record World := {
  (** [exchange.market(symbol)]; [None] when it raises *)
  market : string → string → option Market;
  (** the exchange's answer to [create_order]; [None] when it raises *)
  exchange_create_order :
    string → string → side → Q → Q → option string → option Order;
  (** whether the exchange's [cancel_order] returns without raising *)
  exchange_cancel_order : string → string → string → bool;
  (** [int(time.time())] *)
  time_time : Z;
  (** [datetime.utcnow()], in seconds *)
  utcnow : Q;
  (** [price_fetcher.get_price(symbol, exchange)] *)
  get_price : string → string → option Q
}.

Definition get_market_details (om : t) (w : World) (exchange_name sym : string)
  : option Market :=
  if decide (exchange_name ∈ exchanges om) then market w exchange_name sym
  else None.

Definition create_order (om : t) (w : World) (ex_name sym : string)
    (sd : side) (qty px : Q) (params : option string) : t * option Order :=
  if decide (ex_name ∈ exchanges om) then
    (log_call (CreateOrder ex_name sym sd qty px params) om,
     exchange_create_order w ex_name sym sd qty px params)
  else (om, None).

Definition cancel_order (om : t) (w : World) (exchange_name id sym : string)
  : t * bool :=
  if decide (exchange_name ∈ exchanges om) then
    (log_call (CancelOrder exchange_name id sym) om,
     exchange_cancel_order w exchange_name id sym)
  else (om, false).

(** [symbol.split('-')[0]] *)
Fixpoint split_head (s : string) : string :=
  match s with
  | EmptyString => EmptyString
  | String c rest =>
      if Ascii.eqb c "-"%char then EmptyString else String c (split_head rest)
  end.

(** [{'positionSide': ps} if exch == 'mexc' else {}] *)
Definition position_side (exch ps : string) : option string :=
  if String.eqb exch "mexc" then Some ps else None.

(** *** open_arbitrage

    The coroutine is cut at its last suspension point, the [await] of
    the two [create_order] calls (line 178): [open_arbitrage_prepare] is
    lines 151-176, [open_arbitrage_orders] lines 178-181 and
    [open_arbitrage_finish] lines 183-195. *)

Record Pending := {
  p_symbol : string;
  p_spread : Q;
  p_low_exch : string;
  p_high_exch : string;
  p_low_price : Q;
  p_high_price : Q;
  p_quantity : Q
}.

(** The guard of line 151. *)
Definition refused (cfg : Config.t) (om : t) (sym : string) : bool :=
  bool_decide (sym ∈ Config.SYMBOL_BLACKLIST cfg)
  || bool_decide (Config.MAX_CONCURRENT_TRADES cfg ≤ size (active_trades om))%nat
  || Qleb (daily_pnl om) (- Config.MAX_DAILY_LOSS cfg).

Definition open_arbitrage_prepare (cfg : Config.t) (w : World) (om : t)
    (sym : string) (spread : Q) (low_exch high_exch : string)
    (low_price high_price : Q) : exn + option Pending :=
  if refused cfg om sym then inr None
  else
    match get_market_details om w low_exch sym,
          get_market_details om w high_exch sym with
    | Some low_mkt, Some high_mkt =>
        let min_notional :=
          py_max (or_zero (cost_min low_mkt)) (or_zero (cost_min high_mkt)) in
        if Qltb (Config.MAX_MIN_NOTIONAL_USD cfg) min_notional then inr None
        else
          let min_qty :=
            py_max (or_zero (amount_min low_mkt))
                   (or_zero (amount_min high_mkt)) in
          let pend q :=
            let q' := match Config.RISKY_SYMBOLS cfg !! sym with
                      | Some k => q * k
                      | None => q
                      end in
            inr (Some {| p_symbol := sym; p_spread := spread;
                         p_low_exch := low_exch; p_high_exch := high_exch;
                         p_low_price := low_price;
                         p_high_price := high_price; p_quantity := q' |}) in
          if Qltb 0 min_qty then pend min_qty
          else if Qeq_bool low_price 0 then inl ZeroDivisionError
          else pend (Config.TRADE_AMOUNT cfg * Config.LEVERAGE cfg / low_price)
    | _, _ => inr None
    end.

Definition open_arbitrage_orders (w : World) (om : t) (p : Pending)
  : t * option Order * option Order :=
  let '(om1, buy_order) :=
    create_order om w (p_low_exch p) (p_symbol p) buy (p_quantity p)
      (p_low_price p) (position_side (p_low_exch p) "long") in
  let '(om2, sell_order) :=
    create_order om1 w (p_high_exch p) (p_symbol p) sell (p_quantity p)
      (p_high_price p) (position_side (p_high_exch p) "short") in
  (om2, buy_order, sell_order).

Definition trade_id_of (w : World) (sym : string) : string :=
  split_head sym +:+ "-" +:+ pretty (time_time w).

Definition open_arbitrage_finish (w : World) (om : t) (p : Pending)
    (buy_order sell_order : option Order) : t :=
  match buy_order, sell_order with
  | Some b, Some s =>
      register (trade_id_of w (p_symbol p))
        {| symbol := p_symbol p; entry_spread := p_spread p;
           low_exchange := p_low_exch p; high_exchange := p_high_exch p;
           entry_buy_price := order_price b;
           entry_sell_price := order_price s;
           quantity := p_quantity p; trade_status := st_open;
           entry_time := utcnow w; max_spread_seen := p_spread p;
           net_pnl := None |} om
  | _, _ =>
      let om1 :=
        match buy_order with
        | Some b => fst (cancel_order om w (p_low_exch p) (order_id b) (p_symbol p))
        | None => om
        end in
      match sell_order with
      | Some s => fst (cancel_order om1 w (p_high_exch p) (order_id s) (p_symbol p))
      | None => om1
      end
  end.

Definition open_arbitrage (cfg : Config.t) (w : World) (om : t)
    (sym : string) (spread : Q) (low_exch high_exch : string)
    (low_price high_price : Q) : t * outcome :=
  match open_arbitrage_prepare cfg w om sym spread low_exch high_exch
          low_price high_price with
  | inl e => (om, Raised e)
  | inr None => (om, Returned)
  | inr (Some p) =>
      let '(om1, buy_order, sell_order) := open_arbitrage_orders w om p in
      (open_arbitrage_finish w om1 p buy_order sell_order, Returned)
  end.

(** *** _calculate_and_record_pnl *)

Definition pnl_long (tr : Trade) (exit_sell_price : Q) : Q :=
  (exit_sell_price - entry_buy_price tr) * quantity tr.

Definition pnl_short (tr : Trade) (exit_buy_price : Q) : Q :=
  (entry_sell_price tr - exit_buy_price) * quantity tr.

Definition gross_pnl (tr : Trade) (exit_sell_price exit_buy_price : Q) : Q :=
  pnl_long tr exit_sell_price + pnl_short tr exit_buy_price.

Definition commission (tr : Trade) (exit_sell_price exit_buy_price : Q) : Q :=
  (entry_buy_price tr + entry_sell_price tr + exit_sell_price + exit_buy_price)
  * quantity tr * (7 # 10000).

Definition net_pnl_of (tr : Trade) (exit_sell_price exit_buy_price : Q) : Q :=
  gross_pnl tr exit_sell_price exit_buy_price
  - commission tr exit_sell_price exit_buy_price.

(** Name resolution at line 252.  A frame binds names to values; of a
    value the model only needs to know whether it is a string, the type
    of the keys of [active_trades].  The frame of
    [_calculate_and_record_pnl] holds its parameters and locals, the
    frame of the module its imports, [logger] and the class; no builtin
    is called [trade_id]. *)
Inductive pyval := PyString (s : string) | PyOther.

Definition locals_calculate_and_record_pnl : list (string * pyval) :=
  [("self", PyOther); ("trade", PyOther); ("exit_sell_price", PyOther);
   ("exit_buy_price", PyOther); ("pnl_long", PyOther); ("pnl_short", PyOther);
   ("gross_pnl", PyOther); ("commission", PyOther); ("net_pnl", PyOther)].

Definition module_globals : list (string * pyval) :=
  map (fun name => (name, PyOther))
    ["asyncio"; "time"; "datetime"; "Any"; "Dict"; "List"; "Optional"; "ccxt";
     "LEVERAGE"; "MAX_DAILY_LOSS"; "RISKY_SYMBOLS"; "SYMBOL_BLACKLIST";
     "MAX_CONCURRENT_TRADES"; "TRADE_AMOUNT"; "CLOSE_SPREAD"; "MAX_HOLD_TIME";
     "TRAILING_STOP_ENABLED"; "MAX_MIN_NOTIONAL_USD"; "EXCHANGES";
     "get_logger"; "logger"; "OrderManager"].

Fixpoint lookup_name (frame : list (string * pyval)) (name : string)
  : option pyval :=
  match frame with
  | [] => None
  | (n, v) :: rest => if String.eqb n name then Some v else lookup_name rest name
  end.

(** Loading a name: the local frame first, then the module's;
    [NameError] when neither binds it. *)
Definition load_name (locals : list (string * pyval)) (name : string)
  : exn + pyval :=
  match lookup_name locals name with
  | Some v => inr v
  | None =>
      match lookup_name module_globals name with
      | Some v => inr v
      | None => inl (NameError name)
      end
  end.

(** [trade] is the dictionary at [loc] in the store. *)
Definition _calculate_and_record_pnl (om : t) (loc : nat)
    (exit_sell_price exit_buy_price : Q) : t * outcome :=
  match objects om !! loc with
  | None => (om, Returned)
  | Some tr =>
      let net := net_pnl_of tr exit_sell_price exit_buy_price in
      let om1 := add_daily_pnl net om in
      let om2 := update_object (with_closed net) loc om1 in
      (* self.active_trades.pop(trade_id, None) *)
      match load_name locals_calculate_and_record_pnl "trade_id" with
      | inl e => (om2, Raised e)
      | inr (PyString k) => (pop_trade k om2, Returned)
      | inr PyOther => (om2, Returned)
      end
  end.

(** *** close_arbitrage *)

Definition close_arbitrage (w : World) (om : t) (trade_id : string)
    (reason : string) : t * outcome :=
  match active_trades om !! trade_id with
  | None => (om, Returned)
  | Some loc =>
      match objects om !! loc with
      | None => (om, Returned)
      | Some tr =>
          if negb (bool_decide (trade_status tr = st_open)) then (om, Returned)
          else
            let om1 := update_object (with_status st_closing) loc om in
            let sell_price := get_price w (symbol tr) (low_exchange tr) in
            let buy_price := get_price w (symbol tr) (high_exchange tr) in
            match sell_price, buy_price with
            | Some sp, Some bp =>
                if negb (truthy sell_price) || negb (truthy buy_price) then
                  (update_object (with_status st_error_closing) loc om1, Returned)
                else
                  let '(om2, sell_order) :=
                    create_order om1 w (low_exchange tr) (symbol tr) sell
                      (quantity tr) sp (position_side (low_exchange tr) "long") in
                  let '(om3, buy_order) :=
                    create_order om2 w (high_exchange tr) (symbol tr) buy
                      (quantity tr) bp (position_side (high_exchange tr) "short") in
                  match sell_order, buy_order with
                  | Some so, Some bo =>
                      _calculate_and_record_pnl om3 loc (order_price so)
                        (order_price bo)
                  | _, _ =>
                      (update_object (with_status st_error_closing) loc om3,
                       Returned)
                  end
            | _, _ =>
                (update_object (with_status st_error_closing) loc om1, Returned)
            end
      end
  end.

(** *** monitor_trade *)

Inductive close_reason := timeout | spread_collapse | trailing_stop.

Definition reason_name (r : close_reason) : string :=
  match r with
  | timeout => "timeout"
  | spread_collapse => "spread_collapse"
  | trailing_stop => "trailing_stop"
  end.

(** Line 206; [low_px] is the price on the trade's [low_exchange] (the
    venue of the long leg), [high_px] the price on its [high_exchange]
    (the venue of the short leg). *)
Definition current_spread (low_px high_px : Q) : Q :=
  (low_px - high_px) / high_px * 100.

(** Lines 209-212. *)
Definition exit_check (cfg : Config.t) (tr : Trade)
    (current_spread duration : Q) : option close_reason :=
  if Qltb (Config.MAX_HOLD_TIME cfg) duration then Some timeout
  else if Qltb current_spread (Config.CLOSE_SPREAD cfg) then Some spread_collapse
  else if Config.TRAILING_STOP_ENABLED cfg
          && Qltb current_spread (max_spread_seen tr * (1 # 2))
       then Some trailing_stop
  else None.

(** What one pass through the body of the [while] loop decides, once the
    two prices have been fetched (lines 204-214): [None] when the pass
    ends in [continue] or without a close reason. *)
Definition tick_decision (cfg : Config.t) (tr : Trade)
    (low_px high_px : option Q) (now : Q) : option close_reason :=
  match low_px, high_px with
  | Some lp, Some hp =>
      if negb (truthy low_px) || negb (truthy high_px) then None
      else exit_check cfg tr (current_spread lp hp) (now - entry_time tr)
  | _, _ => None
  end.

(** The loop, driven by the worlds observed at its successive passes: the
    first of a pair answers the monitoring reads, the second the calls
    made by [close_arbitrage].  [None] as outcome: the loop is still
    running when the observations end. *)
Fixpoint monitor_loop (cfg : Config.t) (ws : list (World * World)) (om : t)
    (trade_id : string) (loc : nat) : t * option outcome :=
  match objects om !! loc with
  | None => (om, Some Returned)
  | Some tr =>
      if negb (bool_decide (trade_status tr = st_open)) then (om, Some Returned)
      else
        match ws with
        | [] => (om, None)
        | (w, wc) :: ws' =>
            match tick_decision cfg tr
                    (get_price w (symbol tr) (low_exchange tr))
                    (get_price w (symbol tr) (high_exchange tr)) (utcnow w) with
            | Some r =>
                let '(om', o) := close_arbitrage wc om trade_id (reason_name r) in
                (om', Some o)
            | None => monitor_loop cfg ws' om trade_id loc
            end
        end
  end.

Definition monitor_trade (cfg : Config.t) (ws : list (World * World)) (om : t)
    (trade_id : string) : t * option outcome :=
  match active_trades om !! trade_id with
  | None => (om, Some Returned)
  | Some loc => monitor_loop cfg ws om trade_id loc
  end.

(** *** Overlapping activations of open_arbitrage

    [handler] in telegram_monitor.py starts one task per signal, so a
    second [open_arbitrage] may run its guard while the first is
    suspended on its orders.  A schedule lists, in the order the event
    loop runs them, the activations up to the [await] of line 178
    ([Arrive]) and the resumptions after it ([Resume], which names the
    suspended activation by its position among those in flight). *)

Record Signal := {
  s_symbol : string;
  s_spread : Q;
  s_low_exch : string;
  s_high_exch : string;
  s_low_price : Q;
  s_high_price : Q
}.

Inductive event :=
  | Arrive (sg : Signal) (w : World)
  | Resume (i : nat) (w : World).

Definition sched_step (cfg : Config.t) (st : t * list Pending) (ev : event)
  : t * list Pending :=
  let '(om, inflight) := st in
  match ev with
  | Arrive sg w =>
      match open_arbitrage_prepare cfg w om (s_symbol sg) (s_spread sg)
              (s_low_exch sg) (s_high_exch sg) (s_low_price sg)
              (s_high_price sg) with
      | inr (Some p) => (om, inflight ++ [p])
      | _ => (om, inflight)
      end
  | Resume i w =>
      match inflight !! i with
      | Some p =>
          let '(om1, buy_order, sell_order) := open_arbitrage_orders w om p in
          (open_arbitrage_finish w om1 p buy_order sell_order,
           take i inflight ++ drop (S i) inflight)
      | None => st
      end
  end.

Definition run_schedule (cfg : Config.t) (evs : list event)
    (st : t * list Pending) : t * list Pending :=
  fold_left (sched_step cfg) evs st.

End OrderManager.

(** ** websocket_manager.py *)

Module WebSocketManager.

(** [prices] is the cache [{symbol: {exchange_id: price}}]; nothing but
    the price is stored with an entry.  [watch_tasks] holds the symbols
    that have watcher tasks. *)
Record t := {
  prices : gmap string (gmap string Q);
  watch_tasks : gset string;
  is_running : bool
}.

(** The manager after [__init__] and [start]. *)
Definition started : t :=
  {| prices := ∅; watch_tasks := ∅; is_running := true |}.

(** Lines 95-97. *)
Definition store_price (sym exchange_id : string) (price : Q) (ws : t) : t :=
  {| prices :=
       <[sym := <[exchange_id := price]> (default ∅ (prices ws !! sym))]>
         (prices ws);
     watch_tasks := watch_tasks ws; is_running := is_running ws |}.

(** [self.prices.get(symbol, {}).get(exchange)] *)
Definition cached_price (ws : t) (sym exchange : string) : option Q :=
  default ∅ (prices ws !! sym) !! exchange.

Definition subscribe (sym : string) (ws : t) : t :=
  if negb (is_running ws) then ws
  else if bool_decide (sym ∈ watch_tasks ws) then ws
  else {| prices := prices ws; watch_tasks := {[sym]} ∪ watch_tasks ws;
          is_running := is_running ws |}.

(** *** _watch_ticker_loop *)

(** How one [await exchange.watch_ticker(...)] ends: with a ticker whose
    ['last'] may be [None], with one of the three network exceptions of
    the first handler, or with any other [Exception]. *)
Inductive watch_result :=
  | Ticker (last : option Q)
  | NetworkFailure
  | OtherFailure.

(** The loop's variables: the manager it writes to, [retry_delay], and
    the arguments of the [asyncio.sleep] calls made so far. *)
Record Watcher := {
  manager : t;
  retry_delay : Z;
  sleeps : list Z
}.

Definition back_off (st : Watcher) : Watcher :=
  {| manager := manager st;
     retry_delay := Z.min (retry_delay st * 2) 8;
     sleeps := sleeps st ++ [retry_delay st] |}.

(** One pass through the body of [while self._is_running]. *)
Definition watch_iteration (sym exchange_id : string) (st : Watcher)
    (r : watch_result) : Watcher :=
  if negb (is_running (manager st)) then st
  else
    match r with
    | Ticker last =>
        {| manager := match last with
                      | Some price => store_price sym exchange_id price (manager st)
                      | None => manager st
                      end;
           retry_delay := 1;
           sleeps := sleeps st |}
    | NetworkFailure => back_off st
    | OtherFailure => back_off st
    end.

Definition _watch_ticker_loop (sym exchange_id : string) (ws : t)
    (results : list watch_result) : Watcher :=
  fold_left (watch_iteration sym exchange_id) results
    {| manager := ws; retry_delay := 1; sleeps := [] |}.

(** *** get_price

    The cache changes while [get_price] polls it.  The tickers that the
    watcher loops receive are given with the time at which each is
    stored; the time is known to the model only, the code keeps none. *)

Record Tick := {
  tick_time : Q;
  tick_symbol : string;
  tick_exchange : string;
  tick_last : option Q
}.

Definition apply_tick (ws : t) (tk : Tick) : t :=
  match tick_last tk with
  | Some price => store_price (tick_symbol tk) (tick_exchange tk) price ws
  | None => ws
  end.

(** The manager at time [now]: [ws] with every ticker stored up to then. *)
Definition cache_at (ticks : list Tick) (now : Q) (ws : t) : t :=
  fold_left apply_tick
    (List.filter (fun tk => Qleb (tick_time tk) now) ticks) ws.

(** Lines 125-129, one poll every 0.2 s while [time() < end_time]. *)
Fixpoint poll_loop (fuel : nat) (ticks : list Tick) (ws : t)
    (now end_time : Q) (sym exchange : string) : option Q :=
  match fuel with
  | O => None
  | S fuel' =>
      if Qltb now end_time then
        match cached_price (cache_at ticks now ws) sym exchange with
        | Some price => Some price
        | None => poll_loop fuel' ticks ws (now + (1 # 5)) end_time sym exchange
        end
      else None
  end.

(** [get_price] called at time [now]; [timeout] is in seconds.  The fuel
    covers every poll that fits before [end_time]. *)
Definition get_price (ticks : list Tick) (ws : t) (now : Q)
    (sym exchange : string) (timeout : nat) : t * option Q :=
  let '(ws1, start) :=
    if bool_decide (sym ∈ watch_tasks ws) then (ws, now)
    else (subscribe sym ws, now + 1) in
  (ws1,
   poll_loop (S (5 * timeout)) ticks ws1 start
     (start + inject_Z (Z.of_nat timeout)) sym exchange).

(** The bounds within which the loop keeps [retry_delay]. *)
Definition delay_ok (d : Z) : Prop := (1 ≤ d ≤ 8)%Z.


End WebSocketManager.

(** ** advanced_test_bot.py *)

Module ArbitrageBot.

Record t := {
  signal_count : nat;
  order_manager : OrderManager.t
}.

(** [min(prices, key=prices.get)] and [max(prices, key=prices.get)] over
    a dictionary in insertion order: the first key with the smallest
    (largest) value; [ValueError] on an empty dictionary. *)
Fixpoint best_key (better : Q → Q → bool) (best : string * Q)
    (rest : list (string * Q)) : string * Q :=
  match rest with
  | [] => best
  | kv :: rest' =>
      best_key better (if better (snd kv) (snd best) then kv else best) rest'
  end.

Definition py_min_key (prices : list (string * Q)) : exn + string * Q :=
  match prices with
  | [] => inl ValueError
  | kv :: rest => inr (best_key Qltb kv rest)
  end.

Definition py_max_key (prices : list (string * Q)) : exn + string * Q :=
  match prices with
  | [] => inl ValueError
  | kv :: rest => inr (best_key (fun a b => Qltb b a) kv rest)
  end.

(** Lines 94-95: does the handler go past its two early returns? *)
Definition spread_accepted (cfg : Config.t) (spread : Q) : bool :=
  negb (Qltb spread (Config.MIN_SPREAD cfg))
  && negb (Config.SPREAD_SANITY_CHECK cfg
           && Qltb (Config.MAX_ALLOWED_SPREAD cfg) spread).

(** The arguments with which [handle_signal] awaits
    [order_manager.open_arbitrage], if it does. *)
Definition opening_call (cfg : Config.t) (sym : string) (spread : Q)
    (prices : list (string * Q)) : option OrderManager.Signal :=
  if spread_accepted cfg spread then
    match py_min_key prices, py_max_key prices with
    | inr (low_exch, low_price), inr (high_exch, high_price) =>
        Some {| OrderManager.s_symbol := sym;
                OrderManager.s_spread := spread;
                OrderManager.s_low_exch := low_exch;
                OrderManager.s_high_exch := high_exch;
                OrderManager.s_low_price := low_price;
                OrderManager.s_high_price := high_price |}
    | _, _ => None
    end
  else None.

(** [handle_signal]; whatever [open_arbitrage] raises is caught and
    logged. *)
Definition handle_signal (cfg : Config.t) (w : OrderManager.World) (bot : t)
    (sym : string) (spread : Q) (prices : list (string * Q)) : t :=
  let om := order_manager bot in
  {| signal_count := S (signal_count bot);
     order_manager :=
       match opening_call cfg sym spread prices with
       | Some sg =>
           fst (OrderManager.open_arbitrage cfg w om
                  (OrderManager.s_symbol sg) (OrderManager.s_spread sg)
                  (OrderManager.s_low_exch sg) (OrderManager.s_high_exch sg)
                  (OrderManager.s_low_price sg) (OrderManager.s_high_price sg))
       | None => om
       end |}.

End ArbitrageBot.

(** ** Strings, as far as the parsers need them

    Messages are modelled as ASCII strings: [str.upper], [str.lower] and
    the character classes of the regular expressions are the ASCII ones. *)

Module PyStr.

Definition in_range (lo hi c : ascii) : bool :=
  (nat_of_ascii lo <=? nat_of_ascii c)%nat && (nat_of_ascii c <=? nat_of_ascii hi)%nat.

Definition is_upper (c : ascii) : bool := in_range "A" "Z" c.
Definition is_lower (c : ascii) : bool := in_range "a" "z" c.
Definition is_digit (c : ascii) : bool := in_range "0" "9" c.

Definition upper_char (c : ascii) : ascii :=
  if is_lower c then ascii_of_nat (nat_of_ascii c - 32) else c.

Definition lower_char (c : ascii) : ascii :=
  if is_upper c then ascii_of_nat (nat_of_ascii c + 32) else c.

Fixpoint map_chars (f : ascii → ascii) (s : string) : string :=
  match s with
  | EmptyString => EmptyString
  | String c rest => String (f c) (map_chars f rest)
  end.

Definition upper : string → string := map_chars upper_char.
Definition lower : string → string := map_chars lower_char.

(** [s.replace(' ', '')] *)
Fixpoint remove_spaces (s : string) : string :=
  match s with
  | EmptyString => EmptyString
  | String c rest =>
      if Ascii.eqb c " " then remove_spaces rest
      else String c (remove_spaces rest)
  end.

(** [s] without the literal [pre] at its start, if it starts with it. *)
Fixpoint strip_prefix (pre s : string) : option string :=
  match pre, s with
  | EmptyString, _ => Some s
  | String a pre', String b s' =>
      if Ascii.eqb a b then strip_prefix pre' s' else None
  | String _ _, EmptyString => None
  end.

(** The longest prefix whose characters satisfy [p], and what follows. *)
Fixpoint span (p : ascii → bool) (s : string) : string * string :=
  match s with
  | EmptyString => (EmptyString, EmptyString)
  | String c rest =>
      if p c then let '(a, b) := span p rest in (String c a, b)
      else (EmptyString, s)
  end.

(** [re.search]: the match at the leftmost position where [m] succeeds. *)
Fixpoint search {A} (m : string → option A) (s : string) : option A :=
  match m s with
  | Some r => Some r
  | None =>
      match s with
      | EmptyString => None
      | String _ rest => search m rest
      end
  end.

(** [pat in s] *)
Definition contains (pat s : string) : bool :=
  bool_decide (is_Some (search (strip_prefix pat) s)).

(** [s.replace(pat, '')] for a non-empty [pat]: occurrences are removed
    from left to right, without overlap; [skip] counts the characters of
    an occurrence still to drop. *)
Fixpoint remove_from (pat s : string) (skip : nat) : string :=
  match s with
  | EmptyString => EmptyString
  | String c rest =>
      match skip with
      | S k => remove_from pat rest k
      | O =>
          match strip_prefix pat s with
          | Some _ => remove_from pat rest (String.length pat - 1)
          | None => String c (remove_from pat rest 0)
          end
      end
  end.

Definition remove (pat s : string) : string := remove_from pat s 0.

(** [float(s)] for [s] made of digits and dots, as the groups
    [([\d\.]+)] are: at most one dot and at least one digit, otherwise
    [ValueError] (here [None]). *)
Fixpoint digits_value (s : string) (acc : N) : N :=
  match s with
  | EmptyString => acc
  | String c rest =>
      digits_value rest (acc * 10 + (N_of_ascii c - N_of_ascii "0"))%N
  end.

Fixpoint pow10 (n : nat) : positive :=
  match n with
  | O => 1%positive
  | S k => (10 * pow10 k)%positive
  end.

Definition float (s : string) : option Q :=
  let '(int_part, rest) := span is_digit s in
  match rest with
  | EmptyString =>
      if String.eqb int_part "" then None
      else Some (inject_Z (Z.of_N (digits_value int_part 0)))
  | String c after_dot =>
      let '(frac_part, rest') := span is_digit after_dot in
      if negb (Ascii.eqb c ".") || negb (String.eqb rest' "") then None
      else if String.eqb int_part "" && String.eqb frac_part "" then None
      else
        Some (Qred (Z.of_N (digits_value (int_part +:+ frac_part) 0)
                    # pow10 (String.length frac_part)))
  end.

End PyStr.

(** ** arbitrage_bot/telegram_monitor.py *)

Module TelegramMonitor.

Import PyStr.

Definition is_colon (c : ascii) : bool := Ascii.eqb c ":".
Definition is_digit_or_dot (c : ascii) : bool := is_digit c || Ascii.eqb c ".".
Definition is_upper_or_digit (c : ascii) : bool := is_upper c || is_digit c.

(** The class [[A-Z0_9]] of the COPY pattern: a capital letter, ['0'],
    ['_'] or ['9']. *)
Definition is_copy_char (c : ascii) : bool :=
  is_upper c || Ascii.eqb c "0" || Ascii.eqb c "_" || Ascii.eqb c "9".

Definition non_empty (s : string) : option string :=
  if String.eqb s "" then None else Some s.

(** [#([A-Z0-9]+)] at the start of [s]; the result is group 1.  Each
    repetition is greedy, and in all five patterns the character that
    must follow a repetition is outside its class, so the longest run is
    the only one that can match. *)
Definition symbol_at (s : string) : option string :=
  r ← strip_prefix "#" s;
  non_empty (fst (span is_upper_or_digit r)).

(** [SPREAD[:]*([\d\.]+)%] *)
Definition spread_at (s : string) : option string :=
  r ← strip_prefix "SPREAD" s;
  let '(_, r1) := span is_colon r in
  let '(g, r2) := span is_digit_or_dot r1 in
  g' ← non_empty g;
  _ ← strip_prefix "%" r2;
  Some g'.

(** [\(COPY:([A-Z0_9]+)\)] *)
Definition copy_at (s : string) : option string :=
  r ← strip_prefix "(COPY:" s;
  let '(g, r1) := span is_copy_char r in
  g' ← non_empty g;
  _ ← strip_prefix ")" r1;
  Some g'.

(** [SHORT([A-Z]+)[:]*\$([\d\.]+)] and the same with [LONG]; the result
    is groups 1 and 2. *)
Definition leg_at (keyword s : string) : option (string * string) :=
  r ← strip_prefix keyword s;
  let '(exch, r1) := span is_upper r in
  exch' ← non_empty exch;
  let '(_, r2) := span is_colon r1 in
  r3 ← strip_prefix "$" r2;
  num ← non_empty (fst (span is_digit_or_dot r3));
  Some (exch', num).

(** The [prices] dictionary after lines 55-56, in insertion order. *)
Definition two_prices (long_exch : string) (long_price : Q)
    (short_exch : string) (short_price : Q) : list (string * Q) :=
  if String.eqb long_exch short_exch then [(long_exch, short_price)]
  else [(long_exch, long_price); (short_exch, short_price)].

Definition _parse_message (message : string)
  : option (string * Q * list (string * Q)) :=
  let text := remove_spaces (upper message) in
  raw_symbol ← search symbol_at text;
  spread_text ← search spread_at text;
  spread ← float spread_text;
  let raw_symbol' := default raw_symbol (search copy_at text) in
  let sym := remove "USDT" (remove "_USDT" raw_symbol') +:+ "-USDT" in
  match search (leg_at "SHORT") text, search (leg_at "LONG") text with
  | Some (short_exch, short_num), Some (long_exch, long_num) =>
      long_price ← float long_num;
      short_price ← float short_num;
      let prices :=
        two_prices (lower long_exch) long_price (lower short_exch) short_price in
      if bool_decide (length prices = 2%nat) then Some (sym, spread, prices)
      else None
  | _, _ => None
  end.

(** The [NewMessage] handler of [start]: the arguments of the callback
    task it creates, if any. *)
Definition handler (message : string)
  : option (string * Q * list (string * Q)) :=
  _parse_message message.

End TelegramMonitor.

(** ** advanced_test_bot_old.py: the start of parse_symbol_enhanced

    Lines 1951-1963, the checks made before any pattern is tried; [rest]
    stands for the remainder of the function. *)

Module OldBot.

Definition parse_symbol_enhanced (rest : string → option string)
    (message : string) : option string :=
  if (String.length message <? 3)%nat then None
  else
    let message_lower := PyStr.lower message in
    if PyStr.contains "aligned in" message_lower
       || PyStr.contains "aligned" message_lower
    then None
    else rest message.

End OldBot.

(** ** The specification's formulas, in its own words *)

Module Spec.

(** §4.5, Settling. *)
Definition grossLong (entryLong exitLong qty : Q) : Q :=
  (exitLong - entryLong) * qty.

Definition grossShort (entryShort exitShort qty : Q) : Q :=
  (entryShort - exitShort) * qty.

Definition fees (qty entryLong entryShort exitLong exitShort takerFee : Q) : Q :=
  qty * (entryLong + entryShort + exitLong + exitShort) * takerFee.

Definition net (qty entryLong entryShort exitLong exitShort takerFee : Q) : Q :=
  grossLong entryLong exitLong qty + grossShort entryShort exitShort qty
  - fees qty entryLong entryShort exitLong exitShort takerFee.

(** §4.5, Open. *)
Definition currentSpread (longPx shortPx : Q) : Q :=
  (shortPx - longPx) / longPx * 100.

End Spec.

(** ** Concrete states and worlds used in the examples *)

Module Examples.

Import OrderManager.

Definition venues : gset string := {["bingx"; "mexc"]}.

(** A trade bought on bingx at 1.00 and sold on mexc at 1.05, two units,
    opened at time 0 (the happy path of the specification, §8). *)
Definition foo_trade : Trade :=
  {| symbol := "FOO-USDT"; entry_spread := 5;
     low_exchange := "bingx"; high_exchange := "mexc";
     entry_buy_price := 1; entry_sell_price := 105 # 100; quantity := 2;
     trade_status := st_open; entry_time := 0; max_spread_seen := 5;
     net_pnl := None |}.

Definition one_trade : t :=
  register "FOO-1730000000" foo_trade (init venues).

(** A world in which both venues quote [low_px] and [high_px], list the
    market with a minimum quantity of 2 and fill every order at its
    limit price, except on the venues in [failing]. *)
Definition world (low_px high_px : Q) (now : Q) (failing : list string) : World :=
  {| market := fun _ _ => Some {| cost_min := Some 1; amount_min := Some 2 |};
     exchange_create_order := fun ex _ _ _ px _ =>
       if bool_decide (ex ∈ failing) then None
       else Some {| order_id := "order-" +:+ ex; order_price := px |};
     exchange_cancel_order := fun _ _ _ => true;
     time_time := 1730000000;
     utcnow := now;
     get_price := fun _ ex =>
       if String.eqb ex "bingx" then Some low_px else Some high_px |}.

Definition signal (sym : string) : Signal :=
  {| s_symbol := sym; s_spread := 5; s_low_exch := "bingx";
     s_high_exch := "mexc"; s_low_price := 1; s_high_price := 105 # 100 |}.

Definition calm : World := world 1 (105 # 100) 10 [].

(** Two signals handled one after the other, then two whose activations
    overlap: both run the guard before either registers its trade. *)
Definition overlapping_schedule : list event :=
  [ Arrive (signal "AAA-USDT") calm; Resume 0 calm;
    Arrive (signal "BBB-USDT") calm; Resume 0 calm;
    Arrive (signal "CCC-USDT") calm; Arrive (signal "DDD-USDT") calm;
    Resume 0 calm; Resume 0 calm ].

Definition newline : string := String (ascii_of_nat 10) EmptyString.

(** A price-alignment notice that also carries the fields of a signal. *)
Definition aligned_message : string :=
  "#FOO | Spread: 5.00% | prices aligned in 4m" +:+ newline
  +:+ "Short MEXC : $1.05" +:+ newline
  +:+ "Long BINGX : $1.00".

(** The signal of the specification, §6, without its decoration. *)
Definition signal_message : string :=
  "#1 | Spread: 14.11%" +:+ newline
  +:+ "1_USDT (COPY: 1)" +:+ newline
  +:+ "Short MEXC  : $0.027650000" +:+ newline
  +:+ "Long  BINGX : $0.024230000".


End Examples.

(** ** order_manager.py: get_balance *)

Module Balances.

(** How one [fetch_balance] of the fan-out ends: with an exception, or
    with a dictionary of which the code reads
    [result.get(currency, {}).get('free', 0.0)]; [None] stands for an
    absent currency, an absent ['free'] or a ['free'] that is [None]. *)
Inductive fetch_result :=
  | FetchFailed
  | Fetched (free : option Q).

Definition add_balance (total : Q) (r : fetch_result) : Q :=
  match r with
  | FetchFailed => total
  | Fetched free => total + default 0 free
  end.

(** [get_balance], given the results that [asyncio.gather] returns, in
    the order of [self.exchanges]. *)
Definition get_balance (results : list fetch_result) : Q :=
  fold_left add_balance results 0.

End Balances.

(** ** websocket_manager.py: _get_exchange_symbol and close *)

Module ExchangeSymbols.

(** [s.replace('-', sep)] *)
Fixpoint replace_dash (sep : string) (s : string) : string :=
  match s with
  | EmptyString => EmptyString
  | String c rest =>
      if Ascii.eqb c "-" then sep +:+ replace_dash sep rest
      else String c (replace_dash sep rest)
  end.

Definition _get_exchange_symbol (sym exchange_id : string) : string :=
  if String.eqb exchange_id "bybit" then replace_dash "/" sym +:+ ":USDT"
  else if String.eqb exchange_id "mexc" then replace_dash "" sym
  else if String.eqb exchange_id "gate" then replace_dash "_" sym
  else if String.eqb exchange_id "bingx" then sym
  else replace_dash "/" sym.

(** Does [s] contain the character [c]? *)
Fixpoint has_char (c : ascii) (s : string) : bool :=
  match s with
  | EmptyString => false
  | String d rest => Ascii.eqb d c || has_char c rest
  end.

(** [WebSocketManager.close], as far as the manager's own fields go:
    the tasks are cancelled and the three containers cleared. *)
Definition close (ws : WebSocketManager.t) : WebSocketManager.t :=
  {| WebSocketManager.prices := ∅;
     WebSocketManager.watch_tasks := ∅;
     WebSocketManager.is_running := false |}.

End ExchangeSymbols.

(** ** advanced_test_bot.py: the log buffer and the restart loop *)

Module Supervisor.

(** [BufferHandler.emit], on the bot's [log_buffer]: append, then drop
    the oldest entry once there are more than 100. *)
Definition emit (log_buffer : list string) (msg : string) : list string :=
  let appended := log_buffer ++ [msg] in
  if (100 <? length appended)%nat then drop 1 appended else appended.

(** How one [asyncio.run(main_orchestrator())] of the restart loop ends;
    [KeyboardInterrupt] leaves the loop. *)
Inductive run_result :=
  | RanToEnd
  | Crashed
  | Interrupted.

Record Restarts := {
  retry_delay : Z;
  sleeps : list Z;
  stopped : bool
}.

(** One pass through [while True] (lines 122-131). *)
Definition restart_iteration (st : Restarts) (r : run_result) : Restarts :=
  if stopped st then st
  else
    match r with
    | RanToEnd => st
    | Interrupted =>
        {| retry_delay := retry_delay st; sleeps := sleeps st; stopped := true |}
    | Crashed =>
        {| retry_delay := Z.min (retry_delay st * 2) 60;
           sleeps := sleeps st ++ [retry_delay st];
           stopped := false |}
    end.

Definition restart_loop (results : list run_result) : Restarts :=
  fold_left restart_iteration results
    {| retry_delay := 5; sleeps := []; stopped := false |}.

End Supervisor.

(** ** advanced_test_bot_old.py: calculate_adaptive_quantity *)

Module AdaptiveQuantity.

(** The amount in USDT after the spread and volume adjustments and the
    per-symbol risk factor (lines 2176-2190). *)
Definition adjusted_amount (cfg : Config.t) (sym : string)
    (spread volume_ratio : Q) : Q :=
  let base := Config.TRADE_AMOUNT cfg in
  let base1 :=
    if Qltb 7 spread then base * (18 # 10)
    else if Qltb 5 spread then base * (15 # 10)
    else if Qltb 4 spread then base * (12 # 10)
    else base in
  let base2 :=
    if Qltb volume_ratio (2 # 10) then base1 * (4 # 10)
    else if Qltb volume_ratio (4 # 10) then base1 * (7 # 10)
    else base1 in
  base2 * default 1 (Config.RISKY_SYMBOLS cfg !! sym).

Definition calculate_adaptive_quantity (cfg : Config.t) (sym : string)
    (price spread volume_ratio : Q) : exn + Q :=
  if Qeq_bool price 0 then inl ZeroDivisionError
  else inr (adjusted_amount cfg sym spread volume_ratio
            * Config.LEVERAGE cfg / price).

End AdaptiveQuantity.

(** ** The history of the price cache

    What "the price most recently stored" means, read off the tickers
    themselves rather than off the cache. *)

Module PriceHistory.

Import WebSocketManager.




End PriceHistory.

(** * Properties *)

(** ** Comparisons of Python numbers *)

Lemma Qltb_lt (x y : Q) : Qltb x y = true ↔ x < y.
Proof.
  unfold Qltb. rewrite negb_true_iff. split.
  - intros H. apply Qnot_le_lt. intros Hle.
    apply Qle_bool_iff in Hle. congruence.
  - intros H. destruct (Qle_bool y x) eqn:E; [|reflexivity].
    apply Qle_bool_iff in E. exfalso. exact (Qlt_not_le _ _ H E).
Qed.

Lemma Qltb_ge (x y : Q) : Qltb x y = false ↔ y <= x.
Proof.
  unfold Qltb. rewrite negb_false_iff. apply Qle_bool_iff.
Qed.

Lemma Qltb_cases (x y : Q) :
  (Qltb x y = true ∧ x < y) ∨ (Qltb x y = false ∧ y <= x).
Proof.
  destruct (Qltb x y) eqn:E.
  - left. split; [reflexivity|]. by apply Qltb_lt.
  - right. split; [reflexivity|]. by apply Qltb_ge.
Qed.

Lemma truthy_Some (v : Q) : truthy (Some v) = true ↔ ¬ v == 0.
Proof.
  simpl. rewrite negb_true_iff. split.
  - intros H Heq. apply Qeq_bool_iff in Heq. congruence.
  - intros H. destruct (Qeq_bool v 0) eqn:E; [|reflexivity].
    apply Qeq_bool_iff in E. contradiction.
Qed.

(** ** The store of trade dictionaries *)

Section Store.

Import OrderManager.

Lemma objects_update_object f loc om tr :
  objects om !! loc = Some tr →
  objects (update_object f loc om) !! loc = Some (f tr).
Proof.
  intros H. unfold update_object. simpl.
  rewrite lookup_alter_eq. by rewrite H.
Qed.

Lemma create_order_connected om w ex sym sd qty px params :
  ex ∈ exchanges om →
  create_order om w ex sym sd qty px params =
    (log_call (CreateOrder ex sym sd qty px params) om,
     exchange_create_order w ex sym sd qty px params).
Proof. intros H. unfold create_order. by rewrite decide_True. Qed.

Lemma create_order_Some om w ex sym sd qty px params om' o :
  create_order om w ex sym sd qty px params = (om', Some o) →
  ex ∈ exchanges om
  ∧ om' = log_call (CreateOrder ex sym sd qty px params) om.
Proof.
  unfold create_order. destruct (decide (ex ∈ exchanges om)); intros H.
  - by inversion H.
  - inversion H.
Qed.

Lemma create_order_frame om w ex sym sd qty px params :
  let om' := fst (create_order om w ex sym sd qty px params) in
  exchanges om' = exchanges om ∧ objects om' = objects om
  ∧ active_trades om' = active_trades om ∧ daily_pnl om' = daily_pnl om
  ∧ tasks om' = tasks om ∧ next_object om' = next_object om.
Proof.
  unfold create_order. by destruct (decide (ex ∈ exchanges om)).
Qed.

End Store.

(** ** Realized P&L *)

Section Pnl.

Import OrderManager.

Lemma net_pnl_of_formula tr exit_sell exit_buy :
  net_pnl_of tr exit_sell exit_buy ==
    Spec.net (quantity tr) (entry_buy_price tr) (entry_sell_price tr)
      exit_sell exit_buy (7 # 10000).
Proof.
  unfold net_pnl_of, gross_pnl, pnl_long, pnl_short, commission.
  unfold Spec.net, Spec.grossLong, Spec.grossShort, Spec.fees. ring.
Qed.

(** What [_calculate_and_record_pnl] leaves behind when called on a live
    trade dictionary: the P&L is booked, the dictionary is marked closed,
    the registry is untouched and [NameError] is raised. *)
Lemma calculate_and_record_pnl_effect om loc tr exit_sell exit_buy :
  objects om !! loc = Some tr →
  let net := net_pnl_of tr exit_sell exit_buy in
  let r := _calculate_and_record_pnl om loc exit_sell exit_buy in
  snd r = Raised (NameError "trade_id")
  ∧ objects (fst r) !! loc = Some (with_closed net tr)
  ∧ daily_pnl (fst r) = daily_pnl om + net
  ∧ active_trades (fst r) = active_trades om
  ∧ calls (fst r) = calls om.
Proof.
  intros H. unfold _calculate_and_record_pnl. rewrite H. cbn zeta.
  change (load_name locals_calculate_and_record_pnl "trade_id")
    with (inl (NameError "trade_id") : exn + pyval).
  cbn [fst snd]. split; [reflexivity|]. split.
  - apply (objects_update_object _ _ (add_daily_pnl _ om)). exact H.
  - done.
Qed.

(** C1 (as amended).  Whenever a trade is marked closed, the net P&L
    recorded in it is [grossLong + grossShort - fees] of the
    specification, with the fee rate fixed at 0.0007: the rate is a
    literal of [_calculate_and_record_pnl], the same for every venue,
    and no configuration key feeds it. *)
Theorem C1_recorded_net_uses_fixed_rate om loc tr exit_sell exit_buy :
  objects om !! loc = Some tr →
  ∃ tr' n,
    objects (fst (_calculate_and_record_pnl om loc exit_sell exit_buy)) !! loc
      = Some tr'
    ∧ trade_status tr' = st_closed
    ∧ net_pnl tr' = Some n
    ∧ n == Spec.net (quantity tr) (entry_buy_price tr) (entry_sell_price tr)
             exit_sell exit_buy (7 # 10000).
Proof.
  intros H.
  destruct (calculate_and_record_pnl_effect om loc tr exit_sell exit_buy H)
    as (_ & Hobj & _).
  eexists _, _. split; [exact Hobj|]. split; [reflexivity|].
  split; [reflexivity|]. apply net_pnl_of_formula.
Qed.

Lemma C1_recorded_net_uses_fixed_rate_witness :
  ∃ tr' n,
    objects (fst (_calculate_and_record_pnl Examples.one_trade 0
                    (104 # 100) (1042 # 1000))) !! 0%nat = Some tr'
    ∧ trade_status tr' = st_closed
    ∧ net_pnl tr' = Some n
    ∧ n == Spec.net 2 1 (105 # 100) (104 # 100) (1042 # 1000) (7 # 10000).
Proof.
  apply (C1_recorded_net_uses_fixed_rate Examples.one_trade 0
           Examples.foo_trade (104 # 100) (1042 # 1000)).
  reflexivity.
Defined.

(** C1 (as stated) fails on the worked example of the specification:
    with the taker fee 0.0006 configured there, the formula gives
    0.0910416, while the code records 0.0902152. *)
Lemma C1_configured_rate_not_used :
  ∃ tr' n,
    objects (fst (_calculate_and_record_pnl Examples.one_trade 0
                    (104 # 100) (1042 # 1000))) !! 0%nat = Some tr'
    ∧ net_pnl tr' = Some n
    ∧ ¬ n == Spec.net 2 1 (105 # 100) (104 # 100) (1042 # 1000) (6 # 10000).
Proof.
  eexists _, _. split; [reflexivity|]. split; [reflexivity|].
  vm_compute. discriminate.
Qed.

End Pnl.

(** ** The monitoring loop *)

Section Monitoring.

Import OrderManager.

(** One pass of the loop on an open trade: [close_arbitrage] is awaited
    with the reason that [tick_decision] returns, and the loop goes on
    to its next pass when there is none. *)
Lemma monitor_loop_pass cfg w wc ws om trade_id loc tr :
  objects om !! loc = Some tr →
  trade_status tr = st_open →
  monitor_loop cfg ((w, wc) :: ws) om trade_id loc =
    match tick_decision cfg tr (get_price w (symbol tr) (low_exchange tr))
            (get_price w (symbol tr) (high_exchange tr)) (utcnow w) with
    | Some r =>
        (fst (close_arbitrage wc om trade_id (reason_name r)),
         Some (snd (close_arbitrage wc om trade_id (reason_name r))))
    | None => monitor_loop cfg ws om trade_id loc
    end.
Proof.
  intros Hobj Hst. cbn [monitor_loop]. rewrite Hobj, Hst. simpl.
  destruct (tick_decision _ _ _ _ _); [|reflexivity].
  by destruct (close_arbitrage _ _ _ _).
Qed.


(** The exit predicates, in the order in which the code tries them. *)
Lemma exit_check_timeout cfg tr cs d :
  exit_check cfg tr cs d = Some timeout ↔ Config.MAX_HOLD_TIME cfg < d.
Proof.
  unfold exit_check.
  destruct (Qltb_cases (Config.MAX_HOLD_TIME cfg) d) as [[-> H]|[-> H]].
  - tauto.
  - split.
    + intros E. repeat case_match; discriminate.
    + intros Hlt. exfalso. exact (Qlt_not_le _ _ Hlt H).
Qed.

Lemma exit_check_spread_collapse cfg tr cs d :
  exit_check cfg tr cs d = Some spread_collapse
  ↔ d <= Config.MAX_HOLD_TIME cfg ∧ cs < Config.CLOSE_SPREAD cfg.
Proof.
  unfold exit_check.
  destruct (Qltb_cases (Config.MAX_HOLD_TIME cfg) d) as [[-> H]|[-> H]].
  - split; [discriminate|]. intros [Hle _]. exfalso.
    exact (Qlt_not_le _ _ H Hle).
  - destruct (Qltb_cases cs (Config.CLOSE_SPREAD cfg)) as [[-> H']|[-> H']].
    + tauto.
    + split.
      * intros E. repeat case_match; discriminate.
      * intros [_ Hlt]. exfalso. exact (Qlt_not_le _ _ Hlt H').
Qed.

Lemma exit_check_trailing_stop cfg tr cs d :
  exit_check cfg tr cs d = Some trailing_stop
  ↔ d <= Config.MAX_HOLD_TIME cfg ∧ Config.CLOSE_SPREAD cfg <= cs
    ∧ Config.TRAILING_STOP_ENABLED cfg = true
    ∧ cs < max_spread_seen tr * (1 # 2).
Proof.
  unfold exit_check.
  destruct (Qltb_cases (Config.MAX_HOLD_TIME cfg) d) as [[-> H]|[-> H]].
  { split; [discriminate|]. intros [Hle _]. exfalso.
    exact (Qlt_not_le _ _ H Hle). }
  destruct (Qltb_cases cs (Config.CLOSE_SPREAD cfg)) as [[-> H']|[-> H']].
  { split; [discriminate|]. intros (_ & Hle & _). exfalso.
    exact (Qlt_not_le _ _ H' Hle). }
  destruct (Config.TRAILING_STOP_ENABLED cfg); simpl.
  - destruct (Qltb_cases cs (max_spread_seen tr * (1 # 2)))
      as [[-> H'']|[-> H'']].
    + tauto.
    + split; [discriminate|]. intros (_ & _ & _ & Hlt). exfalso.
      exact (Qlt_not_le _ _ Hlt H'').
  - split; [discriminate|]. intros (_ & _ & E & _). discriminate.
Qed.




(** C6 (as amended).  On each pass the exit predicates are tried in the
    fixed order Timeout (elapsed > MaxHoldTime), then spread collapse
    (current spread < CloseSpread), then TrailingStop (enabled and
    current spread below half the maximum spread seen); the first that
    holds gives the close reason, so when the spread condition and the
    timeout condition hold on the same pass the reason is Timeout.
    There is no liquidation predicate in the loop. *)
Theorem C6_exit_predicates_in_order cfg tr cs d :
  (exit_check cfg tr cs d = Some timeout ↔ Config.MAX_HOLD_TIME cfg < d)
  ∧ (exit_check cfg tr cs d = Some spread_collapse
     ↔ d <= Config.MAX_HOLD_TIME cfg ∧ cs < Config.CLOSE_SPREAD cfg)
  ∧ (exit_check cfg tr cs d = Some trailing_stop
     ↔ d <= Config.MAX_HOLD_TIME cfg ∧ Config.CLOSE_SPREAD cfg <= cs
       ∧ Config.TRAILING_STOP_ENABLED cfg = true
       ∧ cs < max_spread_seen tr * (1 # 2))
  ∧ (Config.MAX_HOLD_TIME cfg < d ∧ cs <= Config.CLOSE_SPREAD cfg
     → exit_check cfg tr cs d = Some timeout).
Proof.
  split; [apply exit_check_timeout|].
  split; [apply exit_check_spread_collapse|].
  split; [apply exit_check_trailing_stop|].
  intros [H _]. by apply exit_check_timeout.
Qed.

(** C6 (as stated) fails: 6100 s into a trade, with both venues quoting
    1.00 (spread 0, below CloseSpread), the target-spread condition and
    the timeout condition both hold and the reason is [timeout]. *)
Lemma C6_timeout_wins_over_target_spread :
  Spec.currentSpread 1 1 <= Config.CLOSE_SPREAD Config.shipped
  ∧ current_spread 1 1 <= Config.CLOSE_SPREAD Config.shipped
  ∧ Config.MAX_HOLD_TIME Config.shipped < 6100 - entry_time Examples.foo_trade
  ∧ tick_decision Config.shipped Examples.foo_trade (Some 1) (Some 1) 6100
    = Some timeout
  ∧ Some timeout ≠ Some spread_collapse.
Proof.
  split; [vm_compute; discriminate|].
  split; [vm_compute; discriminate|].
  split; [reflexivity|].
  split; [reflexivity | discriminate].
Qed.

End Monitoring.

(** ** Opening a trade *)

Section Opening.

Import OrderManager.

Lemma prepare_pending cfg w om sym spread lo hi lp hp p :
  open_arbitrage_prepare cfg w om sym spread lo hi lp hp = inr (Some p) →
  refused cfg om sym = false
  ∧ p_symbol p = sym ∧ p_spread p = spread
  ∧ p_low_exch p = lo ∧ p_high_exch p = hi
  ∧ p_low_price p = lp ∧ p_high_price p = hp.
Proof.
  unfold open_arbitrage_prepare. intros H.
  repeat case_match; simplify_eq; done.
Qed.

Lemma cancel_order_connected om w ex id sym :
  ex ∈ exchanges om →
  fst (cancel_order om w ex id sym) = log_call (CancelOrder ex id sym) om.
Proof. intros H. unfold cancel_order. by rewrite decide_True. Qed.

(** The guard: at the cap, nothing is sent to an exchange and nothing is
    registered. *)
Lemma open_arbitrage_refuses_at_cap cfg w om sym spread lo hi lp hp :
  (Config.MAX_CONCURRENT_TRADES cfg ≤ size (active_trades om))%nat →
  open_arbitrage cfg w om sym spread lo hi lp hp = (om, Returned).
Proof.
  intros H. unfold open_arbitrage, open_arbitrage_prepare, refused.
  rewrite (bool_decide_eq_true_2 _ H). by rewrite orb_true_r.
Qed.

Lemma finish_size w om p b s :
  (size (active_trades (open_arbitrage_finish w om p b s))
   ≤ S (size (active_trades om)))%nat.
Proof.
  unfold open_arbitrage_finish.
  destruct b as [b|], s as [s|]; simpl.
  - rewrite map_size_insert. case_match; unfold id; lia.
  - unfold cancel_order. case_decide; simpl; lia.
  - unfold cancel_order. case_decide; simpl; lia.
  - lia.
Qed.

(** Activations that do not overlap keep the registry within the cap. *)
Lemma open_arbitrage_alone_keeps_cap cfg w om sym spread lo hi lp hp :
  (size (active_trades om) ≤ Config.MAX_CONCURRENT_TRADES cfg)%nat →
  (size (active_trades (fst (open_arbitrage cfg w om sym spread lo hi lp hp)))
   ≤ Config.MAX_CONCURRENT_TRADES cfg)%nat.
Proof.
  intros Hcap. unfold open_arbitrage.
  destruct (open_arbitrage_prepare cfg w om sym spread lo hi lp hp)
    as [e|[p|]] eqn:Hprep; simpl; try exact Hcap.
  apply prepare_pending in Hprep as (Href & _).
  unfold refused in Href.
  apply orb_false_elim in Href as [Href _].
  apply orb_false_elim in Href as [_ Href].
  apply bool_decide_eq_false in Href.
  destruct (open_arbitrage_orders w om p) as [[om1 b] s] eqn:Hord. simpl.
  pose proof (finish_size w om1 p b s) as Hfin.
  assert (active_trades om1 = active_trades om) as Heq.
  { unfold open_arbitrage_orders in Hord.
    destruct (create_order om w _ _ buy _ _ _) as [oma b'] eqn:Ha.
    destruct (create_order oma w _ _ sell _ _ _) as [omb s'] eqn:Hb.
    simplify_eq.
    pose proof (create_order_frame om w (p_low_exch p) (p_symbol p) buy
                  (p_quantity p) (p_low_price p)
                  (position_side (p_low_exch p) "long")) as Fa.
    pose proof (create_order_frame oma w (p_high_exch p) (p_symbol p) sell
                  (p_quantity p) (p_high_price p)
                  (position_side (p_high_exch p) "short")) as Fb.
    rewrite Ha in Fa. rewrite Hb in Fb. simpl in Fa, Fb.
    destruct Fa as (_ & _ & Fa & _), Fb as (_ & _ & Fb & _). congruence. }
  rewrite Heq in Hfin. lia.
Qed.

(** C3.  When the two entry orders are submitted and exactly one of them
    succeeds, the surviving order is cancelled on its venue, no trade is
    registered (no dictionary is created, no monitoring task is started)
    and the daily P&L is unchanged. *)
Theorem C3_one_legged_open_is_cancelled cfg w om sym spread lo hi lp hp
    p om1 b s :
  open_arbitrage_prepare cfg w om sym spread lo hi lp hp = inr (Some p) →
  open_arbitrage_orders w om p = (om1, b, s) →
  (is_Some b ∧ s = None) ∨ (b = None ∧ is_Some s) →
  let om' := fst (open_arbitrage cfg w om sym spread lo hi lp hp) in
  (∃ ex o,
     ((b = Some o ∧ ex = lo) ∨ (s = Some o ∧ ex = hi))
     ∧ calls om' = calls om1 ++ [CancelOrder ex (order_id o) sym])
  ∧ active_trades om' = active_trades om
  ∧ objects om' = objects om
  ∧ tasks om' = tasks om
  ∧ daily_pnl om' = daily_pnl om.
Proof.
  intros Hprep Hord Hone om'. subst om'.
  unfold open_arbitrage. rewrite Hprep, Hord. cbn [fst].
  apply prepare_pending in Hprep as (_ & Hsym & _ & Hlo & Hhi & _).
  unfold open_arbitrage_orders in Hord.
  destruct (create_order om w _ _ buy _ _ _) as [oma b'] eqn:Ha.
  destruct (create_order oma w _ _ sell _ _ _) as [omb s'] eqn:Hb.
  simplify_eq.
  pose proof (create_order_frame om w (p_low_exch p) (p_symbol p) buy
                (p_quantity p) (p_low_price p)
                (position_side (p_low_exch p) "long")) as Fa.
  pose proof (create_order_frame oma w (p_high_exch p) (p_symbol p) sell
                (p_quantity p) (p_high_price p)
                (position_side (p_high_exch p) "short")) as Fb.
  rewrite Ha in Fa. rewrite Hb in Fb. simpl in Fa, Fb.
  destruct Fa as (Fa1 & Fa2 & Fa3 & Fa4 & Fa5 & _).
  destruct Fb as (Fb1 & Fb2 & Fb3 & Fb4 & Fb5 & _).
  destruct Hone as [[[o ->] ->]|[-> [o ->]]].
  - apply create_order_Some in Ha as [Hin _].
    unfold open_arbitrage_finish.
    rewrite cancel_order_connected by (rewrite Fb1, Fa1; exact Hin).
    simpl. split; [|repeat split; congruence].
    exists (p_low_exch p), o. split; [by left | reflexivity].
  - apply create_order_Some in Hb as [Hin _].
    unfold open_arbitrage_finish.
    rewrite cancel_order_connected by (rewrite Fb1; exact Hin).
    simpl. split; [|repeat split; congruence].
    exists (p_high_exch p), o. split; [by right | reflexivity].
Qed.

Lemma C3_one_legged_open_is_cancelled_witness :
  let w := Examples.world 1 (105 # 100) 10 ["mexc"] in
  let om := init Examples.venues in
  let om' := fst (open_arbitrage Config.shipped w om "FOO-USDT" 5
                    "bingx" "mexc" 1 (105 # 100)) in
  (∃ ex o,
     ((Some {| order_id := "order-bingx"; order_price := 1 |} = Some o
       ∧ ex = "bingx") ∨ (None = Some o ∧ ex = "mexc"))
     ∧ calls om' =
         [CreateOrder "bingx" "FOO-USDT" buy 2 1 None;
          CreateOrder "mexc" "FOO-USDT" sell 2 (105 # 100) (Some "short")]
         ++ [CancelOrder ex (order_id o) "FOO-USDT"])
  ∧ active_trades om' = active_trades om
  ∧ objects om' = objects om
  ∧ tasks om' = tasks om
  ∧ daily_pnl om' = daily_pnl om.
Proof.
  intros w om.
  pose proof (C3_one_legged_open_is_cancelled Config.shipped w om "FOO-USDT"
                5 "bingx" "mexc" 1 (105 # 100)) as H.
  specialize (H {| p_symbol := "FOO-USDT"; p_spread := 5;
                   p_low_exch := "bingx"; p_high_exch := "mexc";
                   p_low_price := 1; p_high_price := 105 # 100;
                   p_quantity := 2 |}).
  specialize (H (log_call (CreateOrder "mexc" "FOO-USDT" sell 2 (105 # 100)
                             (Some "short"))
                   (log_call (CreateOrder "bingx" "FOO-USDT" buy 2 1 None) om))
                (Some {| order_id := "order-bingx"; order_price := 1 |}) None).
  apply H.
  - vm_compute. reflexivity.
  - vm_compute. reflexivity.
  - left. split; [eexists; reflexivity | reflexivity].
Defined.

(** C4, at the failing schedule.  With the shipped cap of three, two
    trades are opened one after the other; two further signals then
    arrive so close together that the second runs the guard of
    [open_arbitrage] while the first is still awaiting its orders.  Both
    see two active trades, both register, and the registry holds four. *)
Theorem C4_overlapping_admissions_exceed_cap :
  let final :=
    fst (run_schedule Config.shipped Examples.overlapping_schedule
           (init Examples.venues, [])) in
  size (active_trades final) = 4%nat
  ∧ tasks final =
      ["AAA-1730000000"; "BBB-1730000000"; "CCC-1730000000"; "DDD-1730000000"]
  ∧ Config.MAX_CONCURRENT_TRADES Config.shipped = 3%nat.
Proof. vm_compute. repeat split. Qed.

End Opening.

(** ** Closing a trade *)

Section Closing.

Import OrderManager.

Lemma close_arbitrage_effect w om trade_id reason loc tr sp bp so bo :
  active_trades om !! trade_id = Some loc →
  objects om !! loc = Some tr →
  trade_status tr = st_open →
  get_price w (symbol tr) (low_exchange tr) = Some sp →
  truthy (Some sp) = true →
  get_price w (symbol tr) (high_exchange tr) = Some bp →
  truthy (Some bp) = true →
  low_exchange tr ∈ exchanges om →
  high_exchange tr ∈ exchanges om →
  exchange_create_order w (low_exchange tr) (symbol tr) sell (quantity tr) sp
    (position_side (low_exchange tr) "long") = Some so →
  exchange_create_order w (high_exchange tr) (symbol tr) buy (quantity tr) bp
    (position_side (high_exchange tr) "short") = Some bo →
  let net := net_pnl_of tr (order_price so) (order_price bo) in
  let res := close_arbitrage w om trade_id reason in
  snd res = Raised (NameError "trade_id")
  ∧ daily_pnl (fst res) = daily_pnl om + net
  ∧ objects (fst res) !! loc = Some (with_closed net tr)
  ∧ active_trades (fst res) = active_trades om.
Proof.
  intros Hid Hobj Hst Hsp Tsp Hbp Tbp Hlo Hhi Hso Hbo net res.
  subst res. unfold close_arbitrage.
  rewrite Hid, Hobj, Hst, Hsp, Hbp, Tsp, Tbp. cbn [negb orb bool_decide].
  rewrite bool_decide_eq_true_2 by reflexivity. cbn [negb].
  rewrite create_order_connected by exact Hlo.
  rewrite create_order_connected by exact Hhi.
  rewrite Hso, Hbo.
  match goal with
  | |- context [_calculate_and_record_pnl ?om3 _ _ _] =>
      pose proof (calculate_and_record_pnl_effect om3 loc
                    (with_status st_closing tr) (order_price so)
                    (order_price bo)) as Heff
  end.
  cbn zeta in Heff.
  destruct Heff as (E1 & E2 & E3 & E4 & _).
  { apply (objects_update_object _ _ om). exact Hobj. }
  repeat split; assumption.
Qed.

(** C10.  When an exit predicate fires and both closing orders succeed,
    [_calculate_and_record_pnl] adds the net P&L to [daily_pnl] and marks
    the trade dictionary closed, and then raises [NameError] for the
    unbound name [trade_id]: the closed trade stays in [active_trades],
    and the exception leaves [close_arbitrage] and its caller,
    [monitor_trade]. *)
Theorem C10_closed_trade_stays_registered cfg w wc ws om trade_id loc tr r
    sp bp so bo :
  active_trades om !! trade_id = Some loc →
  objects om !! loc = Some tr →
  trade_status tr = st_open →
  tick_decision cfg tr (get_price w (symbol tr) (low_exchange tr))
    (get_price w (symbol tr) (high_exchange tr)) (utcnow w) = Some r →
  get_price wc (symbol tr) (low_exchange tr) = Some sp →
  truthy (Some sp) = true →
  get_price wc (symbol tr) (high_exchange tr) = Some bp →
  truthy (Some bp) = true →
  low_exchange tr ∈ exchanges om →
  high_exchange tr ∈ exchanges om →
  exchange_create_order wc (low_exchange tr) (symbol tr) sell (quantity tr) sp
    (position_side (low_exchange tr) "long") = Some so →
  exchange_create_order wc (high_exchange tr) (symbol tr) buy (quantity tr) bp
    (position_side (high_exchange tr) "short") = Some bo →
  let net := net_pnl_of tr (order_price so) (order_price bo) in
  let closed := close_arbitrage wc om trade_id (reason_name r) in
  let res := monitor_trade cfg ((w, wc) :: ws) om trade_id in
  snd closed = Raised (NameError "trade_id")
  ∧ snd res = Some (Raised (NameError "trade_id"))
  ∧ daily_pnl (fst res) = daily_pnl om + net
  ∧ objects (fst res) !! loc = Some (with_closed net tr)
  ∧ trade_status (with_closed net tr) = st_closed
  ∧ active_trades (fst res) = active_trades om
  ∧ active_trades (fst res) !! trade_id = Some loc.
Proof.
  intros Hid Hobj Hst Hdec Hsp Tsp Hbp Tbp Hlo Hhi Hso Hbo net closed res.
  destruct (close_arbitrage_effect wc om trade_id (reason_name r) loc tr
              sp bp so bo Hid Hobj Hst Hsp Tsp Hbp Tbp Hlo Hhi Hso Hbo)
    as (E1 & E2 & E3 & E4).
  subst res. unfold monitor_trade. rewrite Hid.
  rewrite (monitor_loop_pass cfg w wc ws om trade_id loc tr Hobj Hst), Hdec.
  cbn [fst snd]. fold closed in E1, E2, E3, E4 |- *.
  split; [exact E1|]. split; [by rewrite E1|].
  split; [exact E2|]. split; [exact E3|]. split; [reflexivity|].
  split; [exact E4|]. by rewrite E4.
Qed.

Lemma C10_closed_trade_stays_registered_witness :
  let w := Examples.world (104 # 100) (1042 # 1000) 30 [] in
  let om := Examples.one_trade in
  let net := net_pnl_of Examples.foo_trade (104 # 100) (1042 # 1000) in
  let closed := close_arbitrage w om "FOO-1730000000" "spread_collapse" in
  let res := monitor_trade Config.shipped [(w, w)] om "FOO-1730000000" in
  snd closed = Raised (NameError "trade_id")
  ∧ snd res = Some (Raised (NameError "trade_id"))
  ∧ daily_pnl (fst res) = daily_pnl om + net
  ∧ objects (fst res) !! 0%nat = Some (with_closed net Examples.foo_trade)
  ∧ trade_status (with_closed net Examples.foo_trade) = st_closed
  ∧ active_trades (fst res) = active_trades om
  ∧ active_trades (fst res) !! "FOO-1730000000" = Some 0%nat.
Proof.
  intros w om.
  apply (C10_closed_trade_stays_registered Config.shipped w w [] om
           "FOO-1730000000" 0 Examples.foo_trade spread_collapse
           (104 # 100) (1042 # 1000)
           {| order_id := "order-bingx"; order_price := 104 # 100 |}
           {| order_id := "order-mexc"; order_price := 1042 # 1000 |});
    try reflexivity; vm_compute; reflexivity.
Defined.

End Closing.

(** ** The price stream *)

Section PriceStream.

Import WebSocketManager.

Lemma cached_price_store sym ex p ws :
  cached_price (store_price sym ex p ws) sym ex = Some p.
Proof.
  unfold cached_price, store_price. simpl.
  rewrite lookup_insert_eq. simpl. apply lookup_insert_eq.
Qed.




(** The back-off invariant of the watcher loop. *)
Lemma watch_iteration_invariant sym ex st r :
  delay_ok (retry_delay st) → Forall delay_ok (sleeps st) →
  delay_ok (retry_delay (watch_iteration sym ex st r))
  ∧ Forall delay_ok (sleeps (watch_iteration sym ex st r)).
Proof.
  intros Hd Hs. unfold watch_iteration, back_off, delay_ok in *.
  destruct (is_running (manager st)); simpl; [|done].
  destruct r; simpl.
  - split; [lia | done].
  - split; [lia|]. apply Forall_app. split; [done|]. by constructor.
  - split; [lia|]. apply Forall_app. split; [done|]. by constructor.
Qed.

Lemma watch_loop_invariant sym ex results st :
  delay_ok (retry_delay st) → Forall delay_ok (sleeps st) →
  delay_ok (retry_delay (fold_left (watch_iteration sym ex) results st))
  ∧ Forall delay_ok (sleeps (fold_left (watch_iteration sym ex) results st)).
Proof.
  revert st. induction results as [|r results IH]; intros st Hd Hs.
  - done.
  - simpl. destruct (watch_iteration_invariant sym ex st r Hd Hs) as [Hd' Hs'].
    by apply IH.
Qed.

Lemma watch_iteration_running sym ex st r :
  is_running (manager (watch_iteration sym ex st r))
  = is_running (manager st).
Proof.
  unfold watch_iteration.
  destruct (is_running (manager st)) eqn:E; simpl; [|exact E].
  destruct r as [[price|]| |]; simpl; exact E.
Qed.

Lemma watch_loop_running sym ex results st :
  is_running (manager (fold_left (watch_iteration sym ex) results st))
  = is_running (manager st).
Proof.
  revert st. induction results as [|r results IH]; intros st; [reflexivity|].
  simpl. rewrite IH. apply watch_iteration_running.
Qed.

(** C8.  In the watcher loop of any venue and symbol, while the manager
    is running: when a [watch_ticker] fails (in either handler) the task
    sleeps the current retry delay and then doubles the delay, capped at
    8 s; when one succeeds the delay is reset to 1 s and nothing is
    slept; the loop starts with a delay of 1 s; hence every back-off
    sleep lasts between 1 and 8 s. *)
Theorem C8_backoff_doubles_capped_at_eight sym ex ws results r :
  is_running ws = true →
  let before := _watch_ticker_loop sym ex ws results in
  let after := _watch_ticker_loop sym ex ws (results ++ [r]) in
  match r with
  | Ticker _ =>
      retry_delay after = 1%Z ∧ sleeps after = sleeps before
  | NetworkFailure | OtherFailure =>
      sleeps after = sleeps before ++ [retry_delay before]
      ∧ retry_delay after = Z.min (retry_delay before * 2) 8
  end
  ∧ retry_delay (_watch_ticker_loop sym ex ws []) = 1%Z
  ∧ sleeps (_watch_ticker_loop sym ex ws []) = []
  ∧ (1 ≤ retry_delay after ≤ 8)%Z
  ∧ (∀ d, d ∈ sleeps after → (1 ≤ d ≤ 8)%Z).
Proof.
  intros Hrun before after.
  assert (is_running (manager before) = true) as Hb.
  { subst before. unfold _watch_ticker_loop.
    rewrite watch_loop_running. exact Hrun. }
  assert (after = watch_iteration sym ex before r) as Hafter.
  { subst after before. unfold _watch_ticker_loop.
    by rewrite fold_left_app. }
  destruct (watch_loop_invariant sym ex (results ++ [r])
              {| manager := ws; retry_delay := 1; sleeps := [] |})
    as [Hd Hs]; [unfold delay_ok; simpl; lia | constructor |].
  fold (_watch_ticker_loop sym ex ws (results ++ [r])) in Hd, Hs.
  fold after in Hd, Hs.
  split; [|split; [reflexivity|split; [reflexivity|split; [exact Hd|]]]].
  - rewrite Hafter. unfold watch_iteration. rewrite Hb. cbn [negb].
    destruct r as [last| |]; done.
  - intros d Hin. rewrite Forall_forall in Hs. exact (Hs d Hin).
Qed.

Lemma C8_backoff_doubles_capped_at_eight_witness :
  let before :=
    _watch_ticker_loop "FOO-USDT" "mexc" started
      [NetworkFailure; OtherFailure; Ticker (Some 7); NetworkFailure] in
  let after :=
    _watch_ticker_loop "FOO-USDT" "mexc" started
      ([NetworkFailure; OtherFailure; Ticker (Some 7); NetworkFailure]
       ++ [OtherFailure]) in
  (sleeps after = sleeps before ++ [retry_delay before]
   ∧ retry_delay after = Z.min (retry_delay before * 2) 8)
  ∧ retry_delay (_watch_ticker_loop "FOO-USDT" "mexc" started []) = 1%Z
  ∧ sleeps (_watch_ticker_loop "FOO-USDT" "mexc" started []) = []
  ∧ (1 ≤ retry_delay after ≤ 8)%Z
  ∧ (∀ d, d ∈ sleeps after → (1 ≤ d ≤ 8)%Z).
Proof.
  apply (C8_backoff_doubles_capped_at_eight "FOO-USDT" "mexc" started
           [NetworkFailure; OtherFailure; Ticker (Some 7); NetworkFailure]
           OtherFailure).
  reflexivity.
Defined.

(** The run of the witness: two failures, a ticker, two failures.  The
    task sleeps 1 s and 2 s, the ticker resets the delay, and it sleeps
    1 s and 2 s again. *)
Lemma watcher_sleeps_and_resets :
  let st :=
    _watch_ticker_loop "FOO-USDT" "mexc" started
      [NetworkFailure; OtherFailure; Ticker (Some 7); NetworkFailure;
       OtherFailure] in
  sleeps st = [1; 2; 1; 2]%Z ∧ retry_delay st = 4%Z
  ∧ cached_price (manager st) "FOO-USDT" "mexc" = Some 7.
Proof. repeat split. Qed.

Lemma cached_price_kept ws tk sym ex :
  is_Some (cached_price ws sym ex) →
  is_Some (cached_price (apply_tick ws tk) sym ex).
Proof.
  unfold apply_tick. destruct (tick_last tk) as [price|]; [|done].
  unfold cached_price, store_price. simpl.
  destruct (decide (tick_symbol tk = sym)) as [<-|Hs].
  - rewrite lookup_insert_eq. simpl.
    destruct (decide (tick_exchange tk = ex)) as [<-|He].
    + rewrite lookup_insert_eq. by eexists.
    + by rewrite lookup_insert_ne.
  - by rewrite lookup_insert_ne.
Qed.

Lemma cached_price_kept_by_all l ws sym ex :
  is_Some (cached_price ws sym ex) →
  is_Some (cached_price (fold_left apply_tick l ws) sym ex).
Proof.
  revert ws. induction l as [|a l IH]; intros ws H; [done|].
  simpl. apply IH. by apply cached_price_kept.
Qed.

Lemma cached_price_once_stored l ws tk :
  In tk l → is_Some (tick_last tk) →
  is_Some (cached_price (fold_left apply_tick l ws)
             (tick_symbol tk) (tick_exchange tk)).
Proof.
  revert ws. induction l as [|a l IH]; intros ws Hin Hlast; [done|].
  simpl. destruct Hin as [->|Hin]; [|by apply IH].
  apply cached_price_kept_by_all. destruct Hlast as [price Hp].
  unfold apply_tick. rewrite Hp. rewrite cached_price_store. by eexists.
Qed.

Lemma poll_loop_None fuel ticks ws now end_time sym ex :
  now < end_time →
  poll_loop (S fuel) ticks ws now end_time sym ex = None →
  cached_price (cache_at ticks now ws) sym ex = None.
Proof.
  intros Hlt. cbn [poll_loop]. apply Qltb_lt in Hlt. rewrite Hlt.
  by destruct (cached_price _ _ _).
Qed.

Lemma stored_before_first_poll ticks ws start tk :
  tk ∈ ticks → tick_time tk <= start → is_Some (tick_last tk) →
  is_Some (cached_price (cache_at ticks start ws)
             (tick_symbol tk) (tick_exchange tk)).
Proof.
  intros Hin Hle Hlast. unfold cache_at.
  apply cached_price_once_stored; [|exact Hlast].
  apply List.filter_In. split; [by apply list_elem_of_In|].
  unfold Qleb. by apply Qle_bool_iff.
Qed.








End PriceStream.

(** ** Signals *)

Section Signals.

Import ArbitrageBot.

Lemma min_max_of_nonempty prices :
  prices ≠ [] →
  ∃ lo hi, py_min_key prices = inr lo ∧ py_max_key prices = inr hi.
Proof.
  destruct prices as [|kv rest]; [done|]. intros _.
  eexists _, _. split; reflexivity.
Qed.

(** The spread gate of [handle_signal], for any signal that carries at
    least one price. *)
Lemma spread_gate cfg sym spread prices :
  Config.SPREAD_SANITY_CHECK cfg = true →
  prices ≠ [] →
  is_Some (opening_call cfg sym spread prices)
  ↔ Config.MIN_SPREAD cfg <= spread ∧ spread <= Config.MAX_ALLOWED_SPREAD cfg.
Proof.
  intros Hflag Hne. unfold opening_call, spread_accepted. rewrite Hflag.
  destruct (min_max_of_nonempty prices Hne) as ([lo lp] & [hi hp] & -> & ->).
  destruct (Qltb_cases spread (Config.MIN_SPREAD cfg)) as [[-> H]|[-> H]];
    simpl.
  - split; [intros [? ?]; discriminate|]. intros [Hle _]. exfalso.
    exact (Qlt_not_le _ _ H Hle).
  - destruct (Qltb_cases (Config.MAX_ALLOWED_SPREAD cfg) spread)
      as [[-> H']|[-> H']]; simpl.
    + split; [intros [? ?]; discriminate|]. intros [_ Hle]. exfalso.
      exact (Qlt_not_le _ _ H' Hle).
    + split; [done | by eexists].
Qed.

(** Whatever [_parse_message] returns carries exactly two prices. *)
Lemma parsed_two_prices message sym spread prices :
  TelegramMonitor._parse_message message = Some (sym, spread, prices) →
  length prices = 2%nat.
Proof.
  unfold TelegramMonitor._parse_message. intros H.
  repeat match type of H with
         | (mbind _ ?o) = Some _ =>
             let E := fresh "E" in destruct o eqn:E; simpl in H; [|discriminate]
         | (match ?o with _ => _ end) = Some _ =>
             let E := fresh "E" in destruct o eqn:E; simpl in H; try discriminate
         | (let '(_, _) := ?o in _) = Some _ =>
             let E := fresh "E" in destruct o eqn:E; simpl in H
         end.
  inversion H; subst.
  match goal with
  | Hlen : bool_decide (length _ = 2%nat) = true |- _ =>
      exact (bool_decide_eq_true_1 _ Hlen)
  end.
Qed.

(** C7.  With the sanity check on, as shipped, [handle_signal] takes a
    parsed signal to [open_arbitrage] if and only if its reported spread
    lies in [MinSpread, MaxAllowedSpread], both bounds included.  In
    that case what [handle_signal] does to the order manager is what
    [open_arbitrage] does, called with the signal's symbol and spread,
    the venue of the lowest price to buy on and the venue of the highest
    price to sell on; otherwise (a spread below MinSpread or above
    MaxAllowedSpread) the order manager is left as it was, whatever the
    exchanges would answer.  The signal is counted either way. *)
Theorem C7_parsed_signal_admitted_iff_spread_in_range cfg message sym spread
    prices :
  Config.SPREAD_SANITY_CHECK cfg = true →
  TelegramMonitor._parse_message message = Some (sym, spread, prices) →
  (is_Some (opening_call cfg sym spread prices)
   ↔ Config.MIN_SPREAD cfg <= spread
     ∧ spread <= Config.MAX_ALLOWED_SPREAD cfg)
  ∧ (Config.MIN_SPREAD cfg <= spread
     ∧ spread <= Config.MAX_ALLOWED_SPREAD cfg →
     ∃ lo lp hi hp,
       py_min_key prices = inr (lo, lp)
       ∧ py_max_key prices = inr (hi, hp)
       ∧ ∀ w bot,
           handle_signal cfg w bot sym spread prices
           = {| signal_count := S (signal_count bot);
                order_manager :=
                  fst (OrderManager.open_arbitrage cfg w (order_manager bot)
                         sym spread lo hi lp hp) |})
  ∧ (¬ (Config.MIN_SPREAD cfg <= spread
        ∧ spread <= Config.MAX_ALLOWED_SPREAD cfg) →
     ∀ w bot,
       handle_signal cfg w bot sym spread prices
       = {| signal_count := S (signal_count bot);
            order_manager := order_manager bot |}).
Proof.
  intros Hflag Hparse.
  assert (prices ≠ []) as Hne.
  { apply parsed_two_prices in Hparse. by destruct prices. }
  pose proof (spread_gate cfg sym spread prices Hflag Hne) as Hgate.
  split; [exact Hgate|]. split.
  - intros Hin. apply Hgate in Hin as [sg Hsg].
    destruct (min_max_of_nonempty prices Hne)
      as ([lo lp] & [hi hp] & Hmin & Hmax).
    exists lo, lp, hi, hp. split; [exact Hmin|]. split; [exact Hmax|].
    intros w bot. unfold handle_signal. rewrite Hsg.
    unfold opening_call in Hsg. rewrite Hmin, Hmax in Hsg.
    destruct (spread_accepted cfg spread); [|discriminate].
    by inversion Hsg.
  - intros Hout w bot. unfold handle_signal.
    destruct (opening_call cfg sym spread prices) as [sg|] eqn:Hsg;
      [|reflexivity].
    exfalso. apply Hout. apply Hgate. by eexists.
Qed.

End Signals.

Lemma C7_parsed_signal_admitted_iff_spread_in_range_witness :
  let prices := [("bingx", 2423 # 100000); ("mexc", 553 # 20000)] in
  (is_Some (ArbitrageBot.opening_call Config.shipped "1-USDT" (1411 # 100) prices)
   ↔ 3 <= 1411 # 100 ∧ 1411 # 100 <= 50)
  ∧ (3 <= 1411 # 100 ∧ 1411 # 100 <= 50 →
     ∃ lo lp hi hp,
       ArbitrageBot.py_min_key prices = inr (lo, lp)
       ∧ ArbitrageBot.py_max_key prices = inr (hi, hp)
       ∧ ∀ w bot,
           ArbitrageBot.handle_signal Config.shipped w bot "1-USDT" (1411 # 100) prices
           = {| ArbitrageBot.signal_count := S (ArbitrageBot.signal_count bot);
                ArbitrageBot.order_manager :=
                  fst (OrderManager.open_arbitrage Config.shipped w
                         (ArbitrageBot.order_manager bot) "1-USDT" (1411 # 100)
                         lo hi lp hp) |})
  ∧ (¬ (3 <= 1411 # 100 ∧ 1411 # 100 <= 50) →
     ∀ w bot,
       ArbitrageBot.handle_signal Config.shipped w bot "1-USDT" (1411 # 100) prices
       = {| ArbitrageBot.signal_count := S (ArbitrageBot.signal_count bot);
            ArbitrageBot.order_manager := ArbitrageBot.order_manager bot |}).
Proof.
  apply (C7_parsed_signal_admitted_iff_spread_in_range Config.shipped
           Examples.signal_message).
  - reflexivity.
  - vm_compute. reflexivity.
Defined.

(** The signal of the witness, handled on connected venues that accept
    every order: [handle_signal] sends the two entry orders, buying on
    bingx and selling on mexc, and the trade is registered; the same
    signal with a spread of 2.99 reaches no exchange. *)
Lemma parsed_signal_reaches_the_exchanges :
  let prices := [("bingx", 2423 # 100000); ("mexc", 553 # 20000)] in
  let bot := {| ArbitrageBot.signal_count := 0;
                ArbitrageBot.order_manager := OrderManager.init Examples.venues |} in
  let after :=
    ArbitrageBot.handle_signal Config.shipped Examples.calm bot "1-USDT" (1411 # 100)
      prices in
  let dropped :=
    ArbitrageBot.handle_signal Config.shipped Examples.calm bot "1-USDT" (299 # 100)
      prices in
  OrderManager.calls (ArbitrageBot.order_manager after)
  = [OrderManager.CreateOrder "bingx" "1-USDT" OrderManager.buy 2
       (2423 # 100000) None;
     OrderManager.CreateOrder "mexc" "1-USDT" OrderManager.sell 2
       (553 # 20000) (Some "short")]
  ∧ OrderManager.tasks (ArbitrageBot.order_manager after) = ["1-1730000000"]
  ∧ ArbitrageBot.signal_count after = 1%nat
  ∧ OrderManager.calls (ArbitrageBot.order_manager dropped) = []
  ∧ OrderManager.tasks (ArbitrageBot.order_manager dropped) = []
  ∧ ArbitrageBot.signal_count dropped = 1%nat.
Proof. vm_compute. repeat split. Qed.

(** The boundary cases of the gate under the shipped configuration. *)
Lemma spread_gate_boundaries :
  let prices := [("bingx", 1); ("mexc", 105 # 100)] in
  is_Some (ArbitrageBot.opening_call Config.shipped "FOO-USDT" 3 prices)
  ∧ ArbitrageBot.opening_call Config.shipped "FOO-USDT" (299 # 100) prices = None
  ∧ is_Some (ArbitrageBot.opening_call Config.shipped "FOO-USDT" 50 prices)
  ∧ ArbitrageBot.opening_call Config.shipped "FOO-USDT" (5001 # 100) prices = None.
Proof. cbv zeta. repeat split; vm_compute; eauto. Qed.

(** ** Alignment notices *)

(** The earlier generation of the bot drops every message that contains
    "aligned", in any letter case, before it tries to parse it. *)
Lemma old_parser_drops_aligned rest message :
  PyStr.contains "aligned" (PyStr.lower message) = true →
  OldBot.parse_symbol_enhanced rest message = None.
Proof.
  intros H. unfold OldBot.parse_symbol_enhanced. rewrite H.
  rewrite orb_true_r. by destruct (_ <? _)%nat.
Qed.

(** C9, at the failing input.  A notice that contains the word "aligned"
    together with a symbol, a spread token and the two price lines is
    parsed by [_parse_message] into a signal, the handler creates the
    callback task for it, and [handle_signal] takes it to
    [open_arbitrage]. *)
Theorem C9_aligned_notice_is_parsed_as_signal :
  PyStr.contains "aligned" Examples.aligned_message = true
  ∧ TelegramMonitor.handler Examples.aligned_message
    = Some ("FOO-USDT", 5, [("bingx", 1); ("mexc", 21 # 20)])
  ∧ is_Some (ArbitrageBot.opening_call Config.shipped "FOO-USDT" 5
               [("bingx", 1); ("mexc", 21 # 20)])
  ∧ ∀ rest, OldBot.parse_symbol_enhanced rest Examples.aligned_message = None.
Proof.
  split; [reflexivity|]. split; [vm_compute; reflexivity|].
  split; [vm_compute; eauto|].
  intros rest. apply old_parser_drops_aligned. reflexivity.
Qed.

(** ** The spread computed by the monitoring loop

    With the long venue at 1.00 and the short venue at 1.05 the spread of
    the specification is 5 %, above CloseSpread; line 206 subtracts the
    other way round and divides by the short price, obtains about
    -4.76 %, and the trade is closed as a spread collapse on its first
    pass. *)
Lemma monitor_spread_has_operands_exchanged :
  Spec.currentSpread 1 (105 # 100) == 5
  ∧ OrderManager.current_spread 1 (105 # 100) == - (100 # 21)
  ∧ OrderManager.tick_decision Config.shipped Examples.foo_trade (Some 1)
      (Some (105 # 100)) 5 = Some OrderManager.spread_collapse.
Proof. repeat split. Qed.

(** * Further properties of the same code *)

(** ** open_arbitrage *)

Section OpeningMore.

Import OrderManager.

Lemma prepare_connected cfg w om sym spread lo hi lp hp p :
  open_arbitrage_prepare cfg w om sym spread lo hi lp hp = inr (Some p) →
  lo ∈ exchanges om ∧ hi ∈ exchanges om.
Proof.
  unfold open_arbitrage_prepare, get_market_details. intros H.
  destruct (refused cfg om sym); [discriminate|].
  destruct (decide (lo ∈ exchanges om)); [|discriminate].
  destruct (market w lo sym); [|discriminate].
  destruct (decide (hi ∈ exchanges om)); [|discriminate].
  done.
Qed.

(** X1.  [open_arbitrage] sends nothing to any exchange and leaves the
    manager as it was whenever the symbol is blacklisted, the registry
    is at the cap, the daily loss limit is reached, a venue is not
    connected or does not list the market, or the larger of the two
    minimum notionals exceeds MAX_MIN_NOTIONAL_USD. *)
Theorem X1_open_arbitrage_sends_nothing_unless_admissible cfg w om sym spread
    lo hi lp hp :
  sym ∈ Config.SYMBOL_BLACKLIST cfg
  ∨ (Config.MAX_CONCURRENT_TRADES cfg ≤ size (active_trades om))%nat
  ∨ daily_pnl om <= - Config.MAX_DAILY_LOSS cfg
  ∨ lo ∉ exchanges om ∨ hi ∉ exchanges om
  ∨ market w lo sym = None ∨ market w hi sym = None
  ∨ (∃ ml mh, market w lo sym = Some ml ∧ market w hi sym = Some mh
       ∧ Config.MAX_MIN_NOTIONAL_USD cfg
         < py_max (or_zero (cost_min ml)) (or_zero (cost_min mh))) →
  open_arbitrage cfg w om sym spread lo hi lp hp = (om, Returned).
Proof.
  intros H. unfold open_arbitrage.
  destruct (open_arbitrage_prepare cfg w om sym spread lo hi lp hp)
    as [e|[p|]] eqn:Hprep; [| |reflexivity]; exfalso.
  - (* the division is only reached past every check *)
    unfold open_arbitrage_prepare, get_market_details, refused in Hprep.
    destruct H as [H|[H|[H|[H|[H|[H|[H|(ml & mh & Hl & Hh & H)]]]]]]].
    + rewrite (bool_decide_eq_true_2 _ H) in Hprep. discriminate.
    + rewrite (bool_decide_eq_true_2 _ H), orb_true_r in Hprep. discriminate.
    + apply Qle_bool_iff in H. unfold Qleb in Hprep.
      rewrite H, orb_true_r in Hprep. discriminate.
    + rewrite (decide_False _ _ H) in Hprep. by destruct (_ || _).
    + rewrite (decide_False _ _ H) in Hprep.
      destruct (_ || _); [discriminate|]. by repeat case_match.
    + rewrite H in Hprep. destruct (_ || _); [discriminate|].
      by repeat case_match.
    + rewrite H in Hprep. destruct (_ || _); [discriminate|].
      by repeat case_match.
    + rewrite Hl, Hh in Hprep. apply Qltb_lt in H.
      destruct (_ || _); [discriminate|].
      destruct (decide _); [|discriminate].
      destruct (decide _); [|discriminate].
      rewrite H in Hprep. discriminate.
  - pose proof (prepare_connected _ _ _ _ _ _ _ _ _ _ Hprep) as [Hlo Hhi].
    pose proof (prepare_pending _ _ _ _ _ _ _ _ _ _ Hprep) as (Href & _).
    unfold open_arbitrage_prepare, get_market_details in Hprep.
    rewrite Href in Hprep.
    rewrite (decide_True _ _ Hlo), (decide_True _ _ Hhi) in Hprep.
    unfold refused in Href.
    apply orb_false_elim in Href as [Href Hpnl].
    apply orb_false_elim in Href as [Hbl Hcap].
    apply bool_decide_eq_false in Hbl, Hcap.
    destruct H as [H|[H|[H|[H|[H|[H|[H|(ml & mh & Hl & Hh & H)]]]]]]];
      try done.
    + apply Qle_bool_iff in H. unfold Qleb in Hpnl. congruence.
    + rewrite H in Hprep. discriminate.
    + rewrite H in Hprep. by destruct (market w lo sym).
    + rewrite Hl, Hh in Hprep. apply Qltb_lt in H. rewrite H in Hprep.
      discriminate.
Qed.

Lemma X1_open_arbitrage_sends_nothing_unless_admissible_witness :
  open_arbitrage Config.shipped Examples.calm (init {["bingx"]}) "FOO-USDT" 5
    "bingx" "mexc" 1 (105 # 100)
  = (init {["bingx"]}, Returned).
Proof.
  apply X1_open_arbitrage_sends_nothing_unless_admissible.
  do 4 right. left. vm_compute. intros H. discriminate H.
Defined.

(** X3.  When both entry orders are accepted, the trade is registered
    under the id made of the symbol's base and the current second, with
    status open, the entry prices reported by the exchanges (not the
    prices of the signal), the same quantity on both legs and
    [max_spread_seen] set to the signal's spread; one monitoring task is
    created, nothing is cancelled and the daily P&L is unchanged. *)
Theorem X3_successful_open_registers_the_trade cfg w om sym spread lo hi
    lp hp p b s :
  open_arbitrage_prepare cfg w om sym spread lo hi lp hp = inr (Some p) →
  exchange_create_order w lo sym buy (p_quantity p) lp
    (position_side lo "long") = Some b →
  exchange_create_order w hi sym sell (p_quantity p) hp
    (position_side hi "short") = Some s →
  let om' := fst (open_arbitrage cfg w om sym spread lo hi lp hp) in
  let id := split_head sym +:+ "-" +:+ pretty (time_time w) in
  active_trades om' !! id = Some (next_object om)
  ∧ objects om' !! next_object om =
      Some {| symbol := sym; entry_spread := spread;
              low_exchange := lo; high_exchange := hi;
              entry_buy_price := order_price b;
              entry_sell_price := order_price s;
              quantity := p_quantity p; trade_status := st_open;
              entry_time := utcnow w; max_spread_seen := spread;
              net_pnl := None |}
  ∧ tasks om' = tasks om ++ [id]
  ∧ daily_pnl om' = daily_pnl om
  ∧ calls om' =
      calls om
      ++ [CreateOrder lo sym buy (p_quantity p) lp (position_side lo "long");
          CreateOrder hi sym sell (p_quantity p) hp (position_side hi "short")].
Proof.
  intros Hprep Hb Hs om' id. subst om' id.
  pose proof (prepare_connected _ _ _ _ _ _ _ _ _ _ Hprep) as [Hlo Hhi].
  pose proof (prepare_pending _ _ _ _ _ _ _ _ _ _ Hprep)
    as (_ & Hsym & Hspr & Hl & Hh & Hlp & Hhp).
  unfold open_arbitrage. rewrite Hprep. unfold open_arbitrage_orders.
  rewrite Hsym, Hl, Hh, Hlp, Hhp.
  rewrite create_order_connected by exact Hlo.
  rewrite create_order_connected by exact Hhi.
  rewrite Hb, Hs. cbn [fst]. unfold open_arbitrage_finish, trade_id_of.
  rewrite Hsym, Hspr, Hl, Hh. simpl.
  rewrite !lookup_insert_eq. rewrite <- app_assoc. done.
Qed.

Lemma X3_successful_open_registers_the_trade_witness :
  let om := init Examples.venues in
  let om' := fst (open_arbitrage Config.shipped Examples.calm om "FOO-USDT" 5
                    "bingx" "mexc" 1 (105 # 100)) in
  let id := split_head "FOO-USDT" +:+ "-" +:+ pretty 1730000000%Z in
  active_trades om' !! id = Some 0%nat
  ∧ objects om' !! 0%nat =
      Some {| symbol := "FOO-USDT"; entry_spread := 5;
              low_exchange := "bingx"; high_exchange := "mexc";
              entry_buy_price := 1; entry_sell_price := 105 # 100;
              quantity := 2; trade_status := st_open;
              entry_time := 10; max_spread_seen := 5; net_pnl := None |}
  ∧ tasks om' = [] ++ [id]
  ∧ daily_pnl om' = 0
  ∧ calls om' =
      [] ++ [CreateOrder "bingx" "FOO-USDT" buy 2 1 None;
             CreateOrder "mexc" "FOO-USDT" sell 2 (105 # 100) (Some "short")].
Proof.
  apply (X3_successful_open_registers_the_trade Config.shipped Examples.calm
           (init Examples.venues) "FOO-USDT" 5 "bingx" "mexc" 1 (105 # 100)
           {| p_symbol := "FOO-USDT"; p_spread := 5; p_low_exch := "bingx";
              p_high_exch := "mexc"; p_low_price := 1;
              p_high_price := 105 # 100; p_quantity := 2 |}
           {| order_id := "order-bingx"; order_price := 1 |}
           {| order_id := "order-mexc"; order_price := 105 # 100 |});
    vm_compute; reflexivity.
Defined.

(** X4.  The trade id has a resolution of one second: when a second
    trade on the same base symbol is registered within the same second,
    it takes the place of the first in [active_trades].  The registry
    does not grow, the id now leads to the second dictionary, the first
    dictionary stays in memory, and two monitoring tasks run under the
    one id. *)
Theorem X4_same_second_trades_share_an_id w1 w2 om p1 p2 b1 s1 b2 s2 :
  time_time w1 = time_time w2 →
  split_head (p_symbol p1) = split_head (p_symbol p2) →
  let om1 := open_arbitrage_finish w1 om p1 (Some b1) (Some s1) in
  let om2 := open_arbitrage_finish w2 om1 p2 (Some b2) (Some s2) in
  let id := trade_id_of w1 (p_symbol p1) in
  size (active_trades om2) = size (active_trades om1)
  ∧ active_trades om1 !! id = Some (next_object om)
  ∧ active_trades om2 !! id = Some (S (next_object om))
  ∧ (∃ tr1, objects om2 !! next_object om = Some tr1
            ∧ entry_buy_price tr1 = order_price b1
            ∧ trade_status tr1 = st_open)
  ∧ tasks om2 = tasks om ++ [id; id].
Proof.
  intros Ht Hs om1 om2 id. subst om1 om2 id.
  unfold open_arbitrage_finish, trade_id_of, register. simpl.
  rewrite <- Ht, <- Hs.
  split.
  { rewrite map_size_insert. by rewrite lookup_insert_eq. }
  split; [apply lookup_insert_eq|].
  split; [apply lookup_insert_eq|].
  split.
  { eexists. split.
    - rewrite lookup_insert_ne by lia. apply lookup_insert_eq.
    - split; reflexivity. }
  by rewrite <- app_assoc.
Qed.

Lemma X4_same_second_trades_share_an_id_witness :
  let p := {| p_symbol := "FOO-USDT"; p_spread := 5; p_low_exch := "bingx";
              p_high_exch := "mexc"; p_low_price := 1;
              p_high_price := 105 # 100; p_quantity := 2 |} in
  let o := {| order_id := "o"; order_price := 1 |} in
  let om := init Examples.venues in
  let om1 := open_arbitrage_finish Examples.calm om p (Some o) (Some o) in
  let om2 := open_arbitrage_finish Examples.calm om1 p (Some o) (Some o) in
  let id := trade_id_of Examples.calm "FOO-USDT" in
  size (active_trades om2) = size (active_trades om1)
  ∧ active_trades om1 !! id = Some 0%nat
  ∧ active_trades om2 !! id = Some 1%nat
  ∧ (∃ tr1, objects om2 !! 0%nat = Some tr1
            ∧ entry_buy_price tr1 = 1
            ∧ trade_status tr1 = st_open)
  ∧ tasks om2 = [] ++ [id; id].
Proof.
  intros p o om.
  apply (X4_same_second_trades_share_an_id Examples.calm Examples.calm om
           p p o o o o); reflexivity.
Defined.

End OpeningMore.

(** ** close_arbitrage and monitor_trade *)

Section ClosingMore.

Import OrderManager.

Local Abbreviation same_entry tr tr' :=
  (max_spread_seen tr' = max_spread_seen tr
   ∧ entry_buy_price tr' = entry_buy_price tr
   ∧ entry_sell_price tr' = entry_sell_price tr
   ∧ quantity tr' = quantity tr
   ∧ entry_time tr' = entry_time tr).

Local Abbreviation is_create c :=
  (∃ ex sym sd qty px ps, c = CreateOrder ex sym sd qty px ps).

Lemma load_trade_id :
  load_name locals_calculate_and_record_pnl "trade_id"
  = inl (NameError "trade_id").
Proof. reflexivity. Qed.

Lemma create_order_calls om w ex sym sd qty px ps :
  ∃ added,
    calls (fst (create_order om w ex sym sd qty px ps)) = calls om ++ added
    ∧ (length added ≤ 1)%nat
    ∧ ∀ c, c ∈ added → is_create c.
Proof.
  unfold create_order. destruct (decide (ex ∈ exchanges om)); simpl.
  - exists [CreateOrder ex sym sd qty px ps]. split; [done|]. split; [done|].
    intros c Hc. apply list_elem_of_singleton in Hc as ->. by eexists _, _, _, _, _, _.
  - exists []. split; [by rewrite app_nil_r|]. split; [simpl; lia|].
    intros c Hc. by apply not_elem_of_nil in Hc.
Qed.

(** What [close_arbitrage] may touch: the trade dictionaries, the daily
    P&L and the list of requests, to which it only adds order
    creations. *)
Lemma close_arbitrage_frame w om trade_id reason :
  let om' := fst (close_arbitrage w om trade_id reason) in
  active_trades om' = active_trades om
  ∧ exchanges om' = exchanges om
  ∧ tasks om' = tasks om
  ∧ ∃ added, calls om' = calls om ++ added
             ∧ (length added ≤ 2)%nat
             ∧ ∀ c, c ∈ added → is_create c.
Proof.
  assert (∀ o : t, ∃ added : list call,
            calls o = calls o ++ added ∧ (length added ≤ 2)%nat
            ∧ ∀ c, c ∈ added → is_create c) as Hnil.
  { intros o. exists []. split; [by rewrite app_nil_r|].
    split; [simpl; lia|]. intros c Hc. by apply not_elem_of_nil in Hc. }
  unfold close_arbitrage.
  destruct (active_trades om !! trade_id) as [loc|]; [|by auto].
  destruct (objects om !! loc) as [tr|] eqn:Hobj; [|by auto].
  destruct (negb (bool_decide (trade_status tr = st_open))); [by auto|].
  cbn zeta.
  destruct (get_price w (symbol tr) (low_exchange tr)) as [sp|];
    [|simpl; by auto].
  destruct (get_price w (symbol tr) (high_exchange tr)) as [bp|];
    [|simpl; by auto].
  destruct (negb (truthy (Some sp)) || negb (truthy (Some bp)));
    [simpl; by auto|].
  set (om1 := update_object (with_status st_closing) loc om).
  pose proof (create_order_frame om1 w (low_exchange tr) (symbol tr) sell
                (quantity tr) sp (position_side (low_exchange tr) "long"))
    as Fa.
  pose proof (create_order_calls om1 w (low_exchange tr) (symbol tr) sell
                (quantity tr) sp (position_side (low_exchange tr) "long"))
    as (a1 & Ca & La & Ia).
  destruct (create_order om1 w (low_exchange tr) _ sell _ _ _)
    as [om2 sell_order].
  pose proof (create_order_frame om2 w (high_exchange tr) (symbol tr) buy
                (quantity tr) bp (position_side (high_exchange tr) "short"))
    as Fb.
  pose proof (create_order_calls om2 w (high_exchange tr) (symbol tr) buy
                (quantity tr) bp (position_side (high_exchange tr) "short"))
    as (a2 & Cb & Lb & Ib).
  destruct (create_order om2 w (high_exchange tr) _ buy _ _ _)
    as [om3 buy_order].
  cbn [fst] in *.
  destruct Fa as (Fa1 & Fa2 & Fa3 & _ & Fa5 & _).
  destruct Fb as (Fb1 & Fb2 & Fb3 & _ & Fb5 & _).
  assert (∃ added, calls om3 = calls om ++ added ∧ (length added ≤ 2)%nat
                   ∧ ∀ c, c ∈ added → is_create c) as Hcalls.
  { exists (a1 ++ a2). split; [by rewrite Cb, Ca, app_assoc|].
    split; [rewrite length_app; lia|].
    intros c Hc. apply elem_of_app in Hc as [Hc|Hc]; auto. }
  assert (active_trades om3 = active_trades om) as Hat
    by (change (active_trades om) with (active_trades om1); congruence).
  assert (exchanges om3 = exchanges om) as Hex
    by (change (exchanges om) with (exchanges om1); congruence).
  assert (tasks om3 = tasks om) as Hta
    by (change (tasks om) with (tasks om1); congruence).
  destruct sell_order as [so|], buy_order as [bo|]; try (simpl; by auto).
  unfold _calculate_and_record_pnl.
  destruct (objects om3 !! loc); [|by auto].
  rewrite load_trade_id. simpl. by auto.
Qed.

(** After [close_arbitrage], the trade under the id is not open. *)
Lemma close_arbitrage_leaves_not_open w om trade_id reason loc tr' :
  active_trades om !! trade_id = Some loc →
  objects (fst (close_arbitrage w om trade_id reason)) !! loc = Some tr' →
  trade_status tr' ≠ st_open.
Proof.
  intros Hid. unfold close_arbitrage. rewrite Hid.
  destruct (objects om !! loc) as [tr|] eqn:Hobj; [|simpl; congruence].
  destruct (bool_decide (trade_status tr = st_open)) eqn:Hst; simpl.
  2:{ apply bool_decide_eq_false in Hst. intros E.
      rewrite Hobj in E. by simplify_eq. }
  assert (∀ o s, objects o !! loc = Some (with_status st_closing tr) →
            s ≠ st_open →
            objects (update_object (with_status s) loc o) !! loc = Some tr' →
            trade_status tr' ≠ st_open) as Hupd.
  { intros o s Ho Hs E.
    rewrite (objects_update_object _ _ _ _ Ho) in E. by simplify_eq. }
  pose proof (objects_update_object (with_status st_closing) loc om tr Hobj)
    as Ho1.
  set (om1 := update_object (with_status st_closing) loc om) in *.
  destruct (get_price w (symbol tr) (low_exchange tr)) as [sp|]; cbn [fst];
    [|by apply (Hupd om1)].
  destruct (get_price w (symbol tr) (high_exchange tr)) as [bp|]; cbn [fst];
    [|by apply (Hupd om1)].
  destruct (negb (truthy (Some sp)) || negb (truthy (Some bp)));
    [by apply (Hupd om1)|].
  pose proof (create_order_frame om1 w (low_exchange tr) (symbol tr) sell
                (quantity tr) sp (position_side (low_exchange tr) "long"))
    as Fa.
  destruct (create_order om1 w (low_exchange tr) _ sell _ _ _)
    as [om2 sell_order].
  pose proof (create_order_frame om2 w (high_exchange tr) (symbol tr) buy
                (quantity tr) bp (position_side (high_exchange tr) "short"))
    as Fb.
  destruct (create_order om2 w (high_exchange tr) _ buy _ _ _)
    as [om3 buy_order].
  cbn [fst] in *.
  destruct Fa as (_ & Fa2 & _), Fb as (_ & Fb2 & _).
  assert (objects om3 !! loc = Some (with_status st_closing tr)) as Ho3
    by congruence.
  destruct sell_order as [so|], buy_order as [bo|];
    try (by apply (Hupd om3)).
  destruct (calculate_and_record_pnl_effect om3 loc _ (order_price so)
              (order_price bo) Ho3) as (_ & E & _).
  intros E'. rewrite E in E'. by simplify_eq.
Qed.

(** X5.  [close_arbitrage] acts at most once on a trade: after it has
    run, however it ended, a second call for the same id changes nothing
    and sends nothing. *)
Theorem X5_close_arbitrage_acts_once w w' om trade_id reason reason' :
  close_arbitrage w' (fst (close_arbitrage w om trade_id reason)) trade_id
    reason'
  = (fst (close_arbitrage w om trade_id reason), Returned).
Proof.
  pose proof (close_arbitrage_frame w om trade_id reason) as (Hat & _).
  pose proof (close_arbitrage_leaves_not_open w om trade_id reason) as Hno.
  set (om' := fst (close_arbitrage w om trade_id reason)) in *.
  unfold close_arbitrage at 1. rewrite Hat.
  destruct (active_trades om !! trade_id) as [loc|] eqn:Hid; [|done].
  destruct (objects om' !! loc) as [tr'|] eqn:Hobj; [|done].
  specialize (Hno loc tr' eq_refl Hobj).
  by rewrite (bool_decide_eq_false_2 _ Hno).
Qed.

(** X7.  Whatever happens, [close_arbitrage] keeps the trade in
    [active_trades], creates no task, and sends at most two requests,
    both order creations: it never cancels an order. *)
Theorem X7_close_arbitrage_never_cancels w om trade_id reason :
  let om' := fst (close_arbitrage w om trade_id reason) in
  active_trades om' = active_trades om
  ∧ tasks om' = tasks om
  ∧ ∃ added, calls om' = calls om ++ added
             ∧ (length added ≤ 2)%nat
             ∧ ∀ c, c ∈ added →
                 ∃ ex sym sd qty px ps, c = CreateOrder ex sym sd qty px ps.
Proof.
  destruct (close_arbitrage_frame w om trade_id reason) as (H1 & _ & H3 & H4).
  auto.
Qed.

End ClosingMore.

Section MonitoringMore.

Import OrderManager.

Lemma create_order_snd om1 om2 w ex sym sd qty px ps :
  exchanges om1 = exchanges om2 →
  snd (create_order om1 w ex sym sd qty px ps)
  = snd (create_order om2 w ex sym sd qty px ps).
Proof.
  intros H. unfold create_order. rewrite H.
  by destruct (decide (ex ∈ exchanges om2)).
Qed.

(** X6.  When exactly one of the two closing orders is accepted, the
    trade is marked [error_closing] with no P&L recorded, the daily P&L
    is unchanged, the call returns normally, and the order that was
    accepted is not cancelled: one leg of the pair stays closed by an
    order and the other stays open. *)
Theorem X6_one_legged_close_is_left_as_it_is w om trade_id reason loc tr
    sp bp so bo :
  active_trades om !! trade_id = Some loc →
  objects om !! loc = Some tr →
  trade_status tr = st_open →
  get_price w (symbol tr) (low_exchange tr) = Some sp →
  truthy (Some sp) = true →
  get_price w (symbol tr) (high_exchange tr) = Some bp →
  truthy (Some bp) = true →
  snd (create_order om w (low_exchange tr) (symbol tr) sell (quantity tr) sp
         (position_side (low_exchange tr) "long")) = so →
  snd (create_order om w (high_exchange tr) (symbol tr) buy (quantity tr) bp
         (position_side (high_exchange tr) "short")) = bo →
  (is_Some so ∧ bo = None) ∨ (so = None ∧ is_Some bo) →
  let res := close_arbitrage w om trade_id reason in
  snd res = Returned
  ∧ objects (fst res) !! loc = Some (with_status st_error_closing tr)
  ∧ net_pnl (with_status st_error_closing tr) = net_pnl tr
  ∧ daily_pnl (fst res) = daily_pnl om
  ∧ active_trades (fst res) = active_trades om
  ∧ ∀ ex id sym, CancelOrder ex id sym ∈ calls (fst res) →
                 CancelOrder ex id sym ∈ calls om.
Proof.
  intros Hid Hobj Hst Hsp Tsp Hbp Tbp Hso Hbo Hone res.
  assert (∀ ex id sym, CancelOrder ex id sym ∈ calls (fst res) →
                       CancelOrder ex id sym ∈ calls om) as Hcancel.
  { intros ex id sym Hin. subst res.
    destruct (close_arbitrage_frame w om trade_id reason)
      as (_ & _ & _ & added & Hc & _ & Hcreate).
    rewrite Hc in Hin. apply elem_of_app in Hin as [Hin|Hin]; [done|].
    destruct (Hcreate _ Hin) as (? & ? & ? & ? & ? & ? & ?). discriminate. }
  assert (∃ om3, res = (update_object (with_status st_error_closing) loc om3,
                        Returned)
                 ∧ objects om3 !! loc = Some (with_status st_closing tr)
                 ∧ daily_pnl om3 = daily_pnl om
                 ∧ active_trades om3 = active_trades om) as (om3 & -> & Ho & Hd & Ha).
  { subst res. unfold close_arbitrage.
    rewrite Hid, Hobj, Hst, Hsp, Hbp, Tsp, Tbp.
    rewrite bool_decide_eq_true_2 by reflexivity. cbn [negb orb].
    set (om1 := update_object (with_status st_closing) loc om).
    pose proof (create_order_frame om1 w (low_exchange tr) (symbol tr) sell
                  (quantity tr) sp (position_side (low_exchange tr) "long"))
      as Fa.
    pose proof (create_order_snd om1 om w (low_exchange tr) (symbol tr) sell
                  (quantity tr) sp (position_side (low_exchange tr) "long")
                  eq_refl) as Sa.
    destruct (create_order om1 w (low_exchange tr) _ sell _ _ _)
      as [om2 so'].
    pose proof (create_order_frame om2 w (high_exchange tr) (symbol tr) buy
                  (quantity tr) bp (position_side (high_exchange tr) "short"))
      as Fb.
    cbn [fst snd] in Fa, Sa.
    destruct Fa as (Fa1 & Fa2 & Fa3 & Fa4 & _).
    pose proof (create_order_snd om2 om w (high_exchange tr) (symbol tr) buy
                  (quantity tr) bp (position_side (high_exchange tr) "short")
                  Fa1) as Sb.
    destruct (create_order om2 w (high_exchange tr) _ buy _ _ _)
      as [om3 bo'].
    cbn [fst snd] in Fb, Sb.
    destruct Fb as (Fb1 & Fb2 & Fb3 & Fb4 & _).
    assert (so' = so) as -> by congruence.
    assert (bo' = bo) as -> by congruence.
    exists om3.
    assert (objects om3 !! loc = Some (with_status st_closing tr)) as Ho3.
    { rewrite Fb2, Fa2. by apply objects_update_object. }
    split; [|split; [exact Ho3|split]].
    2:{ change (daily_pnl om) with (daily_pnl om1). congruence. }
    2:{ change (active_trades om) with (active_trades om1). congruence. }
    destruct Hone as [[[o ->] ->]|[-> [o ->]]]; reflexivity. }
  cbn [fst snd] in *.
  split; [reflexivity|].
  split; [rewrite (objects_update_object _ _ _ _ Ho); reflexivity|].
  split; [reflexivity|]. split; [exact Hd|]. split; [exact Ha|].
  exact Hcancel.
Qed.

Lemma X6_one_legged_close_is_left_as_it_is_witness :
  let w := Examples.world (104 # 100) (1042 # 1000) 30 ["mexc"] in
  let om := Examples.one_trade in
  let res := close_arbitrage w om "FOO-1730000000" "timeout" in
  snd res = Returned
  ∧ objects (fst res) !! 0%nat
    = Some (with_status st_error_closing Examples.foo_trade)
  ∧ net_pnl (with_status st_error_closing Examples.foo_trade)
    = net_pnl Examples.foo_trade
  ∧ daily_pnl (fst res) = daily_pnl om
  ∧ active_trades (fst res) = active_trades om
  ∧ ∀ ex id sym, CancelOrder ex id sym ∈ calls (fst res) →
                 CancelOrder ex id sym ∈ calls om.
Proof.
  intros w om.
  apply (X6_one_legged_close_is_left_as_it_is w om "FOO-1730000000" "timeout"
           0 Examples.foo_trade (104 # 100) (1042 # 1000)
           (Some {| order_id := "order-bingx"; order_price := 104 # 100 |})
           None);
    try reflexivity.
  left. split; [by eexists | reflexivity].
Defined.

(** X8.  A pass of the monitoring loop on which either venue has no
    price (or a price of zero) decides nothing: as long as that lasts
    the trade stays open and untouched, however long it has been held,
    so the timeout does not fire without prices. *)
Theorem X8_no_exit_without_prices cfg ws om trade_id loc tr :
  active_trades om !! trade_id = Some loc →
  objects om !! loc = Some tr →
  trade_status tr = st_open →
  Forall (fun wp =>
            truthy (get_price (fst wp) (symbol tr) (low_exchange tr)) = false
            ∨ truthy (get_price (fst wp) (symbol tr) (high_exchange tr)) = false)
         ws →
  monitor_trade cfg ws om trade_id = (om, None).
Proof.
  intros Hid Hobj Hst Hall. unfold monitor_trade. rewrite Hid.
  induction Hall as [|[w wc] ws Hw _ IH].
  - cbn [monitor_loop]. by rewrite Hobj, Hst.
  - rewrite (monitor_loop_pass cfg w wc ws om trade_id loc tr Hobj Hst).
    cbn [fst] in Hw. unfold tick_decision.
    destruct (get_price w (symbol tr) (low_exchange tr)) as [lp|];
      destruct (get_price w (symbol tr) (high_exchange tr)) as [hp|];
      try exact IH.
    destruct Hw as [-> | ->]; [exact IH|].
    rewrite orb_true_r. exact IH.
Qed.

Lemma X8_no_exit_without_prices_witness :
  let blind := {| market := fun _ _ => None;
                  exchange_create_order := fun _ _ _ _ _ _ => None;
                  exchange_cancel_order := fun _ _ _ => true;
                  time_time := 1730009000; utcnow := 9000;
                  get_price := fun _ ex =>
                    if String.eqb ex "mexc" then None else Some 1 |} in
  monitor_trade Config.shipped [(blind, blind); (blind, blind)]
    Examples.one_trade "FOO-1730000000"
  = (Examples.one_trade, None).
Proof.
  intros blind.
  apply (X8_no_exit_without_prices Config.shipped
           [(blind, blind); (blind, blind)] Examples.one_trade
           "FOO-1730000000" 0 Examples.foo_trade); try reflexivity.
  repeat constructor; right; reflexivity.
Defined.

(** X10.  The gross P&L of a pair depends on the exit prices only
    through their difference: moving both exit prices by the same amount
    leaves it unchanged (the pair is market neutral), and the net P&L
    changes only by the commission on the move, 2 x shift x quantity x
    0.0007.  With exits at the entry prices the net P&L is minus the
    commission. *)
Theorem X10_pnl_is_market_neutral tr exit_sell exit_buy shift :
  gross_pnl tr (exit_sell + shift) (exit_buy + shift)
    == gross_pnl tr exit_sell exit_buy
  ∧ net_pnl_of tr (exit_sell + shift) (exit_buy + shift)
    == net_pnl_of tr exit_sell exit_buy
       - 2 * shift * quantity tr * (7 # 10000)
  ∧ net_pnl_of tr (entry_buy_price tr) (entry_sell_price tr)
    == - commission tr (entry_buy_price tr) (entry_sell_price tr).
Proof.
  unfold net_pnl_of, gross_pnl, pnl_long, pnl_short, commission.
  repeat split; ring.
Qed.

End MonitoringMore.

Section EntryData.

Import OrderManager.

Local Abbreviation same_entry tr tr' :=
  (max_spread_seen tr' = max_spread_seen tr
   ∧ entry_spread tr' = entry_spread tr
   ∧ entry_buy_price tr' = entry_buy_price tr
   ∧ entry_sell_price tr' = entry_sell_price tr
   ∧ quantity tr' = quantity tr
   ∧ entry_time tr' = entry_time tr).

Local Abbreviation entries_kept om om' :=
  (∀ l tr, objects om !! l = Some tr →
           ∃ tr', objects om' !! l = Some tr' ∧ same_entry tr tr').

Lemma entries_kept_refl om : entries_kept om om.
Proof. intros l tr H. exists tr. done. Qed.

Lemma entries_kept_trans om1 om2 om3 :
  entries_kept om1 om2 → entries_kept om2 om3 → entries_kept om1 om3.
Proof.
  intros H12 H23 l tr H.
  destruct (H12 l tr H) as (tr2 & H2 & E2).
  destruct (H23 l tr2 H2) as (tr3 & H3 & E3).
  exists tr3. split; [exact H3|].
  destruct E2 as (? & ? & ? & ? & ? & ?), E3 as (? & ? & ? & ? & ? & ?).
  repeat split; congruence.
Qed.

Lemma entries_kept_update f loc om :
  (∀ x, same_entry x (f x)) → entries_kept om (update_object f loc om).
Proof.
  intros Hf l tr H. unfold update_object. simpl.
  destruct (decide (loc = l)) as [->|Hne].
  - rewrite lookup_alter_eq, H. simpl. eexists. split; [reflexivity|apply Hf].
  - rewrite lookup_alter_ne by done. exists tr. done.
Qed.

Lemma entries_kept_objects om om' :
  objects om' = objects om → entries_kept om om'.
Proof. intros E l tr H. rewrite E. exists tr. done. Qed.

Lemma close_arbitrage_keeps_entries w om trade_id reason :
  entries_kept om (fst (close_arbitrage w om trade_id reason)).
Proof.
  unfold close_arbitrage.
  destruct (active_trades om !! trade_id) as [loc|];
    [|apply entries_kept_refl].
  destruct (objects om !! loc) as [tr0|] eqn:Hobj; [|apply entries_kept_refl].
  destruct (negb (bool_decide (trade_status tr0 = st_open)));
    [apply entries_kept_refl|].
  cbn zeta.
  set (om1 := update_object (with_status st_closing) loc om).
  assert (entries_kept om om1) as K1 by (by apply entries_kept_update).
  assert (∀ o, entries_kept om o →
               entries_kept om
                 (update_object (with_status st_error_closing) loc o)) as Kerr.
  { intros o Ko. eapply entries_kept_trans; [exact Ko|].
    by apply entries_kept_update. }
  destruct (get_price w (symbol tr0) (low_exchange tr0)) as [sp|];
    [|by apply Kerr].
  destruct (get_price w (symbol tr0) (high_exchange tr0)) as [bp|];
    [|by apply Kerr].
  destruct (negb (truthy (Some sp)) || negb (truthy (Some bp)));
    [by apply Kerr|].
  pose proof (create_order_frame om1 w (low_exchange tr0) (symbol tr0) sell
                (quantity tr0) sp (position_side (low_exchange tr0) "long"))
    as Fa.
  destruct (create_order om1 w (low_exchange tr0) _ sell _ _ _)
    as [om2 sell_order].
  pose proof (create_order_frame om2 w (high_exchange tr0) (symbol tr0) buy
                (quantity tr0) bp (position_side (high_exchange tr0) "short"))
    as Fb.
  destruct (create_order om2 w (high_exchange tr0) _ buy _ _ _)
    as [om3 buy_order].
  cbn [fst] in *.
  destruct Fa as (_ & Fa2 & _), Fb as (_ & Fb2 & _).
  assert (entries_kept om om3) as K3.
  { eapply entries_kept_trans; [exact K1|].
    apply entries_kept_objects. congruence. }
  destruct sell_order as [so|], buy_order as [bo|]; try (by apply Kerr).
  unfold _calculate_and_record_pnl.
  destruct (objects om3 !! loc) as [tr3|]; [|exact K3].
  rewrite load_trade_id. cbn [fst].
  eapply entries_kept_trans; [exact K3|].
  match goal with
  | |- context [update_object ?f loc (add_daily_pnl ?x om3)] =>
      eapply entries_kept_trans;
        [apply (entries_kept_objects om3 (add_daily_pnl x om3)); reflexivity|];
      by apply entries_kept_update
  end.
Qed.

(** X9.  Monitoring and closing never change what was recorded at entry:
    after any run of [monitor_trade], every trade dictionary has the
    entry prices, quantity, entry time and entry spread it had, and the
    [max_spread_seen] it was registered with.  The trailing stop
    therefore always compares with half the spread of the signal. *)
Theorem X9_monitoring_keeps_entry_data cfg ws om trade_id l tr :
  objects om !! l = Some tr →
  ∃ tr',
    objects (fst (monitor_trade cfg ws om trade_id)) !! l = Some tr'
    ∧ max_spread_seen tr' = max_spread_seen tr
    ∧ entry_spread tr' = entry_spread tr
    ∧ entry_buy_price tr' = entry_buy_price tr
    ∧ entry_sell_price tr' = entry_sell_price tr
    ∧ quantity tr' = quantity tr
    ∧ entry_time tr' = entry_time tr.
Proof.
  revert l tr. change (entries_kept om (fst (monitor_trade cfg ws om trade_id))).
  unfold monitor_trade.
  destruct (active_trades om !! trade_id) as [loc|];
    [|apply entries_kept_refl].
  induction ws as [|[w wc] ws IH]; cbn [monitor_loop].
  - destruct (objects om !! loc) as [tr0|]; [|apply entries_kept_refl].
    destruct (negb _); apply entries_kept_refl.
  - destruct (objects om !! loc) as [tr0|] eqn:Hobj;
      [|apply entries_kept_refl].
    destruct (negb _) eqn:Hst; [apply entries_kept_refl|].
    destruct (tick_decision _ _ _ _ _) as [r|].
    + pose proof (close_arbitrage_keeps_entries wc om trade_id
                    (reason_name r)) as K.
      by destruct (close_arbitrage wc om trade_id (reason_name r)).
    + exact IH.
Qed.

Lemma X9_monitoring_keeps_entry_data_witness :
  let w := Examples.world (104 # 100) (1042 # 1000) 30 [] in
  ∃ tr',
    objects (fst (monitor_trade Config.shipped [(w, w)] Examples.one_trade
                    "FOO-1730000000")) !! 0%nat = Some tr'
    ∧ max_spread_seen tr' = 5
    ∧ entry_spread tr' = 5
    ∧ entry_buy_price tr' = 1
    ∧ entry_sell_price tr' = 105 # 100
    ∧ quantity tr' = 2
    ∧ entry_time tr' = 0.
Proof.
  intros w.
  apply (X9_monitoring_keeps_entry_data Config.shipped [(w, w)]
           Examples.one_trade "FOO-1730000000" 0 Examples.foo_trade).
  reflexivity.
Defined.

End EntryData.

(** ** handle_signal *)

Section SignalsMore.

Import ArbitrageBot.

(** X2.  As long as signals are handled in turn, each to completion
    before the next, the registry never holds more than
    MAX_CONCURRENT_TRADES trades, whatever the signals and whatever the
    exchanges answer; and every signal is counted, admitted or not. *)
Theorem X2_signals_in_turn_keep_the_cap cfg
    (sigs : list (OrderManager.World * string * Q * list (string * Q))) bot :
  (size (OrderManager.active_trades (order_manager bot))
   ≤ Config.MAX_CONCURRENT_TRADES cfg)%nat →
  let bot' :=
    fold_left (fun b '(w, sym, spread, prices) =>
                 handle_signal cfg w b sym spread prices) sigs bot in
  (size (OrderManager.active_trades (order_manager bot'))
   ≤ Config.MAX_CONCURRENT_TRADES cfg)%nat
  ∧ signal_count bot' = (signal_count bot + length sigs)%nat.
Proof.
  revert bot. induction sigs as [|[[[w sym] spread] prices] sigs IH];
    intros bot Hcap; cbn [fold_left length].
  - split; [exact Hcap | lia].
  - destruct (IH (handle_signal cfg w bot sym spread prices)) as [H1 H2].
    + unfold handle_signal. cbn [order_manager].
      destruct (opening_call cfg sym spread prices); [|exact Hcap].
      by apply open_arbitrage_alone_keeps_cap.
    + split; [exact H1|]. rewrite H2. unfold handle_signal. simpl. lia.
Qed.

Lemma X2_signals_in_turn_keep_the_cap_witness :
  let prices := [("bingx", 1); ("mexc", 105 # 100)] in
  let sigs := [(Examples.calm, "AAA-USDT", 5, prices);
               (Examples.calm, "BBB-USDT", 5, prices);
               (Examples.calm, "CCC-USDT", 5, prices);
               (Examples.calm, "DDD-USDT", 5, prices)] in
  let bot := {| signal_count := 0;
                order_manager := OrderManager.init Examples.venues |} in
  let bot' :=
    fold_left (fun b '(w, sym, spread, prices) =>
                 handle_signal Config.shipped w b sym spread prices) sigs bot in
  (size (OrderManager.active_trades (order_manager bot')) ≤ 3)%nat
  ∧ signal_count bot' = (0 + 4)%nat.
Proof.
  intros prices sigs bot.
  apply (X2_signals_in_turn_keep_the_cap Config.shipped sigs bot).
  vm_compute. lia.
Defined.






(** X12.  When the two venues of a signal quote the same price, the
    first venue of the dictionary is taken both as the venue to buy on
    and as the venue to sell on: both entry orders go to one exchange. *)
Theorem X12_equal_quotes_put_both_legs_on_one_venue cfg sym spread a pa b pb :
  spread_accepted cfg spread = true →
  pa == pb →
  (∃ sg, opening_call cfg sym spread [(a, pa); (b, pb)] = Some sg
         ∧ OrderManager.s_low_exch sg = a
         ∧ OrderManager.s_high_exch sg = a)
  ∧ ∀ w bot,
      handle_signal cfg w bot sym spread [(a, pa); (b, pb)]
      = {| signal_count := S (signal_count bot);
           order_manager :=
             fst (OrderManager.open_arbitrage cfg w (order_manager bot)
                    sym spread a a pa pa) |}.
Proof.
  intros Hacc Heq.
  assert (opening_call cfg sym spread [(a, pa); (b, pb)]
          = Some {| OrderManager.s_symbol := sym;
                    OrderManager.s_spread := spread;
                    OrderManager.s_low_exch := a;
                    OrderManager.s_high_exch := a;
                    OrderManager.s_low_price := pa;
                    OrderManager.s_high_price := pa |}) as Hcall.
  { unfold opening_call. rewrite Hacc. simpl.
    assert (Qltb pb pa = false) as ->.
    { apply Qltb_ge. rewrite Heq. apply Qle_refl. }
    assert (Qltb pa pb = false) as ->.
    { apply Qltb_ge. rewrite Heq. apply Qle_refl. }
    reflexivity. }
  split.
  - eexists. split; [exact Hcall|]. done.
  - intros w bot. unfold handle_signal. by rewrite Hcall.
Qed.

Lemma X12_equal_quotes_put_both_legs_on_one_venue_witness :
  (∃ sg, opening_call Config.shipped "FOO-USDT" 5
           [("bingx", 1); ("mexc", 1)] = Some sg
         ∧ OrderManager.s_low_exch sg = "bingx"
         ∧ OrderManager.s_high_exch sg = "bingx")
  ∧ ∀ w bot,
      handle_signal Config.shipped w bot "FOO-USDT" 5
        [("bingx", 1); ("mexc", 1)]
      = {| signal_count := S (signal_count bot);
           order_manager :=
             fst (OrderManager.open_arbitrage Config.shipped w
                    (order_manager bot) "FOO-USDT" 5 "bingx" "bingx" 1 1) |}.
Proof.
  apply (X12_equal_quotes_put_both_legs_on_one_venue Config.shipped
           "FOO-USDT" 5 "bingx" 1 "mexc" 1); reflexivity.
Defined.

End SignalsMore.

(** ** The price cache and its watchers *)

From Stdlib Require Import Lqa.

Section PriceStreamMore.

Import WebSocketManager.

Lemma cached_price_store_other sym ex p ws sym' ex' :
  (sym', ex') ≠ (sym, ex) →
  cached_price (store_price sym ex p ws) sym' ex' = cached_price ws sym' ex'.
Proof.
  intros Hne. unfold cached_price, store_price. simpl.
  destruct (decide (sym = sym')) as [<-|Hs].
  - rewrite lookup_insert_eq. simpl.
    rewrite lookup_insert_ne; [done|]. intros <-. by apply Hne.
  - by rewrite lookup_insert_ne.
Qed.

(** X13.  Storing a price makes it the cached price of its symbol and
    venue and changes the cached price of no other symbol or venue, also
    when it is the first price of its symbol. *)
Theorem X13_store_price_touches_one_entry sym ex p ws sym' ex' :
  cached_price (store_price sym ex p ws) sym ex = Some p
  ∧ ((sym', ex') ≠ (sym, ex) →
     cached_price (store_price sym ex p ws) sym' ex' = cached_price ws sym' ex').
Proof.
  split; [apply cached_price_store | apply cached_price_store_other].
Qed.

(** X14.  [subscribe] is idempotent; it does nothing while the manager
    is not running, registers the symbol otherwise, and never touches a
    cached price. *)
Theorem X14_subscribe_is_idempotent sym ws :
  subscribe sym (subscribe sym ws) = subscribe sym ws
  ∧ (is_running ws = false → subscribe sym ws = ws)
  ∧ (is_running ws = true → sym ∈ watch_tasks (subscribe sym ws))
  ∧ prices (subscribe sym ws) = prices ws.
Proof.
  unfold subscribe.
  destruct (is_running ws) eqn:Hrun; simpl.
  - destruct (bool_decide (sym ∈ watch_tasks ws)) eqn:Hin; simpl.
    + rewrite Hrun, Hin. simpl. apply bool_decide_eq_true in Hin. done.
    + rewrite bool_decide_eq_true_2 by set_solver.
      repeat split; [done | set_solver].
  - rewrite Hrun. simpl. done.
Qed.

Lemma consecutive_failures sym ex results st (k : nat) :
  is_running (manager st) = true →
  retry_delay st = Z.min (2 ^ Z.of_nat k) 8 →
  Forall (fun r => r = NetworkFailure ∨ r = OtherFailure) results →
  let st' := fold_left (watch_iteration sym ex) results st in
  retry_delay st' = Z.min (2 ^ Z.of_nat (k + length results)) 8
  ∧ sleeps st' =
      sleeps st
      ++ map (fun i => Z.min (2 ^ Z.of_nat i) 8) (seq k (length results))
  ∧ manager st' = manager st.
Proof.
  intros Hrun Hd Hall. revert st k Hrun Hd.
  induction Hall as [|r results Hr _ IH]; intros st k Hrun Hd; simpl.
  - rewrite Nat.add_0_r, app_nil_r. done.
  - assert (watch_iteration sym ex st r = back_off st) as ->.
    { unfold watch_iteration. rewrite Hrun. by destruct Hr as [-> | ->]. }
    destruct (IH (back_off st) (S k)) as (H1 & H2 & H3).
    + exact Hrun.
    + unfold back_off. simpl. rewrite Hd.
      rewrite Nat2Z.inj_succ, Z.pow_succ_r by lia.
      assert (0 < 2 ^ Z.of_nat k)%Z by (apply Z.pow_pos_nonneg; lia). lia.
    + simpl in H1, H2, H3.
      replace (k + S (length results))%nat with (S k + length results)%nat
        by lia.
      split; [exact H1|]. split; [|exact H3].
      rewrite H2. unfold back_off. simpl. rewrite <- app_assoc, Hd. done.
Qed.

(** X15.  After n failures in a row, counted from a successful tick or
    from the start of the loop, the retry delay is min(2^n, 8) seconds
    and the task has slept 1, 2, 4, 8, 8, ... seconds; the cache is as
    it was. *)
Theorem X15_backoff_after_consecutive_failures sym ex ws results :
  is_running ws = true →
  Forall (fun r => r = NetworkFailure ∨ r = OtherFailure) results →
  let st := _watch_ticker_loop sym ex ws results in
  retry_delay st = Z.min (2 ^ Z.of_nat (length results)) 8
  ∧ sleeps st
    = map (fun i => Z.min (2 ^ Z.of_nat i) 8) (seq 0 (length results))
  ∧ manager st = ws.
Proof.
  intros Hrun Hall. unfold _watch_ticker_loop.
  apply (consecutive_failures sym ex results
           {| manager := ws; retry_delay := 1; sleeps := [] |} 0);
    [exact Hrun | reflexivity | exact Hall].
Qed.

Lemma X15_backoff_after_consecutive_failures_witness :
  let st := _watch_ticker_loop "FOO-USDT" "mexc" started
              [NetworkFailure; OtherFailure; NetworkFailure; NetworkFailure;
               OtherFailure] in
  retry_delay st = Z.min (2 ^ Z.of_nat 5) 8
  ∧ sleeps st = map (fun i => Z.min (2 ^ Z.of_nat i) 8) (seq 0 5)
  ∧ manager st = started.
Proof.
  apply (X15_backoff_after_consecutive_failures "FOO-USDT" "mexc" started
           [NetworkFailure; OtherFailure; NetworkFailure; NetworkFailure;
            OtherFailure]).
  - reflexivity.
  - repeat (apply Forall_cons; split;
            [first [left; reflexivity | right; reflexivity]|]).
    apply Forall_nil_2.
Defined.

Lemma cached_price_apply_other ws tk sym ex :
  (tick_symbol tk = sym → tick_exchange tk = ex → tick_last tk = None) →
  cached_price (apply_tick ws tk) sym ex = cached_price ws sym ex.
Proof.
  intros H. unfold apply_tick.
  destruct (tick_last tk) as [p|] eqn:Hp; [|done].
  apply cached_price_store_other.
  intros E. inversion E; subst. by specialize (H eq_refl eq_refl).
Qed.

End PriceStreamMore.

Section GetPriceMore.

Import WebSocketManager.

Lemma subscribe_prices sym ws : prices (subscribe sym ws) = prices ws.
Proof. unfold subscribe. by repeat case_match. Qed.

Lemma cache_at_other ticks now ws sym ex :
  (∀ tk, tk ∈ ticks → tick_symbol tk = sym → tick_exchange tk = ex →
         tick_last tk = None) →
  cached_price (cache_at ticks now ws) sym ex = cached_price ws sym ex.
Proof.
  unfold cache_at. revert ws.
  induction ticks as [|tk ticks IH]; intros ws H; [done|].
  simpl. destruct (Qleb (tick_time tk) now).
  - simpl. rewrite IH.
    + apply cached_price_apply_other. apply H. by left.
    + intros tk' Hin. apply H. by right.
  - apply IH. intros tk' Hin. apply H. by right.
Qed.

Lemma poll_loop_nothing fuel ticks ws now end_time sym ex :
  (∀ t, cached_price (cache_at ticks t ws) sym ex = None) →
  poll_loop fuel ticks ws now end_time sym ex = None.
Proof.
  intros H. revert now. induction fuel as [|fuel IH]; intros now; [done|].
  cbn [poll_loop]. destruct (Qltb now end_time); [|done].
  by rewrite H.
Qed.

(** X17.  When the cache holds no price for the symbol and venue and no
    ticker brings one, [get_price] gives up and returns [None], whatever
    arrives for other symbols and venues in the meantime. *)
Theorem X17_get_price_times_out ticks ws now sym ex timeout :
  cached_price ws sym ex = None →
  (∀ tk, tk ∈ ticks → tick_symbol tk = sym → tick_exchange tk = ex →
         tick_last tk = None) →
  snd (get_price ticks ws now sym ex timeout) = None.
Proof.
  intros Hnone Hticks. unfold get_price.
  destruct (bool_decide (sym ∈ watch_tasks ws)); cbn [snd];
    apply poll_loop_nothing; intros t; rewrite cache_at_other by done.
  - exact Hnone.
  - unfold cached_price in *. by rewrite subscribe_prices.
Qed.

Lemma X17_get_price_times_out_witness :
  snd (get_price
         [{| tick_time := 1; tick_symbol := "BAR-USDT";
             tick_exchange := "mexc"; tick_last := Some 7 |};
          {| tick_time := 2; tick_symbol := "FOO-USDT";
             tick_exchange := "mexc"; tick_last := None |}]
         started 0 "FOO-USDT" "mexc" 5) = None.
Proof.
  apply X17_get_price_times_out.
  - reflexivity.
  - intros tk Hin Hs He.
    apply elem_of_cons in Hin as [->|Hin]; [discriminate Hs|].
    apply list_elem_of_singleton in Hin as ->. reflexivity.
Defined.

Lemma Q_fifth_step (now end_time : Q) (n : nat) :
  now + inject_Z (Z.of_nat (S n)) * (1 # 5) == end_time →
  now + (1 # 5) + inject_Z (Z.of_nat n) * (1 # 5) == end_time.
Proof.
  intros H. rewrite <- H. rewrite Nat2Z.inj_succ. unfold Z.succ.
  rewrite inject_Z_plus. ring.
Qed.

Lemma poll_loop_finds ticks ws sym ex tk :
  tk ∈ ticks → tick_symbol tk = sym → tick_exchange tk = ex →
  is_Some (tick_last tk) →
  ∀ n now end_time,
    now + inject_Z (Z.of_nat (S n)) * (1 # 5) == end_time →
    tick_time tk <= end_time - (1 # 5) →
    is_Some (poll_loop (S (S n)) ticks ws now end_time sym ex).
Proof.
  intros Hin <- <- Hlast. induction n as [|n IH]; intros now end_time He Hle.
  - cbn [poll_loop].
    assert (now < end_time) as Hlt.
    { rewrite <- He. change (inject_Z (Z.of_nat 1)) with 1. lra. }
    apply Qltb_lt in Hlt. rewrite Hlt.
    assert (tick_time tk <= now) as Hnow.
    { rewrite <- He in Hle. change (inject_Z (Z.of_nat 1)) with 1 in Hle. lra. }
    destruct (stored_before_first_poll ticks ws now tk Hin Hnow Hlast)
      as [p ->]. by eexists.
  - assert (now < end_time) as Hlt.
    { rewrite <- He. rewrite Nat2Z.inj_succ. unfold Z.succ.
      rewrite inject_Z_plus.
      assert (0 <= inject_Z (Z.of_nat (S n))) as Hpos.
      { change 0 with (inject_Z 0). rewrite <- Zle_Qle. lia. }
      change (inject_Z 1) with 1. lra. }
    apply Qltb_lt in Hlt.
    change (poll_loop (S (S (S n))) ticks ws now end_time
              (tick_symbol tk) (tick_exchange tk))
      with (if Qltb now end_time then
              match cached_price (cache_at ticks now ws)
                      (tick_symbol tk) (tick_exchange tk) with
              | Some price => Some price
              | None =>
                  poll_loop (S (S n)) ticks ws (now + (1 # 5)) end_time
                    (tick_symbol tk) (tick_exchange tk)
              end
            else None).
    rewrite Hlt.
    destruct (cached_price _ _ _); [by eexists|].
    apply IH; [by apply Q_fifth_step | exact Hle].
Qed.

(** X16.  [get_price] waits for a price: if a ticker with a price for
    the symbol and venue is stored at any time up to the last poll, 0.2 s
    before the timeout runs out, [get_price] returns a price, whether or
    not the symbol was subscribed before the call. *)
Theorem X16_get_price_waits_for_a_price ticks ws now sym ex timeout tk :
  (0 < timeout)%nat →
  tk ∈ ticks → tick_symbol tk = sym → tick_exchange tk = ex →
  is_Some (tick_last tk) →
  tick_time tk <= now + inject_Z (Z.of_nat timeout) - (1 # 5) →
  is_Some (snd (get_price ticks ws now sym ex timeout)).
Proof.
  intros Ht Hin Hs He Hlast Hle. unfold get_price.
  destruct timeout as [|n]; [lia|].
  replace (5 * S n)%nat with (S (5 * n + 4))%nat by lia.
  assert (∀ start, start + inject_Z (Z.of_nat (S (5 * n + 4))) * (1 # 5)
                   == start + inject_Z (Z.of_nat (S n))) as Hend.
  { intros start. replace (S (5 * n + 4))%nat with (5 * S n)%nat by lia.
    rewrite Nat2Z.inj_mul, inject_Z_mult.
    change (inject_Z (Z.of_nat 5)) with 5. field. }
  destruct (bool_decide (sym ∈ watch_tasks ws)); cbn [snd].
  - apply (poll_loop_finds ticks ws sym ex tk Hin Hs He Hlast);
      [apply Hend | exact Hle].
  - apply (poll_loop_finds ticks (subscribe sym ws) sym ex tk Hin Hs He Hlast);
      [apply Hend | lra].
Qed.

Lemma X16_get_price_waits_for_a_price_witness :
  is_Some (snd (get_price
                  [{| tick_time := 4; tick_symbol := "FOO-USDT";
                      tick_exchange := "mexc"; tick_last := Some 7 |}]
                  started 0 "FOO-USDT" "mexc" 5)).
Proof.
  apply (X16_get_price_waits_for_a_price _ started 0 "FOO-USDT" "mexc" 5
           {| tick_time := 4; tick_symbol := "FOO-USDT";
              tick_exchange := "mexc"; tick_last := Some 7 |});
    try reflexivity.
  - lia.
  - left.
  - by eexists.
  - vm_compute. discriminate.
Defined.

(** X19.  After [close] the manager answers no request for a price: it
    is not running, so [get_price] cannot subscribe, the cache is empty,
    and with the watchers cancelled [get_price] returns [None] for every
    symbol and venue. *)
Theorem X19_closed_manager_has_no_prices ws now sym ex timeout :
  let res := get_price [] (ExchangeSymbols.close ws) now sym ex timeout in
  snd res = None ∧ fst res = ExchangeSymbols.close ws.
Proof.
  cbv zeta. split.
  - unfold get_price.
    destruct (bool_decide _); cbn [snd]; apply poll_loop_nothing;
      intros t; reflexivity.
  - unfold get_price. rewrite bool_decide_eq_false_2 by set_solver.
    reflexivity.
Qed.

End GetPriceMore.

(** ** Exchange symbols *)

Section SymbolsMore.

Import ExchangeSymbols.

Lemma append_cons (x : ascii) (a b : string) :
  String x a +:+ b = String x (a +:+ b).
Proof. reflexivity. Qed.

Lemma append_assoc (a b c : string) : (a +:+ b) +:+ c = a +:+ (b +:+ c).
Proof.
  induction a as [|x a IH]; [reflexivity|].
  rewrite !append_cons. f_equal. exact IH.
Qed.

Lemma replace_dash_none sep s :
  has_char "-" s = false → replace_dash sep s = s.
Proof.
  induction s as [|d s IH]; cbn [has_char replace_dash]; [done|].
  intros H. apply orb_false_elim in H as [Hd Hs]. rewrite Hd.
  f_equal. by apply IH.
Qed.

Lemma replace_dash_pair sep base quote :
  has_char "-" base = false →
  has_char "-" quote = false →
  replace_dash sep (base +:+ "-" +:+ quote) = base +:+ sep +:+ quote.
Proof.
  intros Hb Hq. induction base as [|c base IH].
  - change ("" +:+ "-" +:+ quote) with (String "-" quote).
    change ("" +:+ sep +:+ quote) with (sep +:+ quote).
    cbn [replace_dash Ascii.eqb Bool.eqb]. f_equal.
    by apply replace_dash_none.
  - cbn [has_char] in Hb. apply orb_false_elim in Hb as [Hc Hb].
    rewrite !append_cons. cbn [replace_dash]. rewrite Hc.
    f_equal. by apply IH.
Qed.

(** X18.  For a symbol in the bot's standard form BASE-QUOTE (one dash),
    [_get_exchange_symbol] gives BASE/QUOTE:USDT for bybit, BASEQUOTE
    for mexc, BASE_QUOTE for gate, the symbol itself for bingx and
    BASE/QUOTE for any other exchange. *)
Theorem X18_exchange_symbol_formats base quote other :
  has_char "-" base = false →
  has_char "-" quote = false →
  other ≠ "bybit" → other ≠ "mexc" → other ≠ "gate" → other ≠ "bingx" →
  let sym := base +:+ "-" +:+ quote in
  _get_exchange_symbol sym "bybit" = base +:+ "/" +:+ quote +:+ ":USDT"
  ∧ _get_exchange_symbol sym "mexc" = base +:+ quote
  ∧ _get_exchange_symbol sym "gate" = base +:+ "_" +:+ quote
  ∧ _get_exchange_symbol sym "bingx" = sym
  ∧ _get_exchange_symbol sym other = base +:+ "/" +:+ quote.
Proof.
  intros Hb Hq H1 H2 H3 H4 sym. subst sym. unfold _get_exchange_symbol.
  apply String.eqb_neq in H1, H2, H3, H4. rewrite H1, H2, H3, H4.
  cbn [String.eqb Ascii.eqb Bool.eqb].
  rewrite !replace_dash_pair by assumption.
  rewrite !append_assoc. done.
Qed.

Lemma X18_exchange_symbol_formats_witness :
  let sym := "BTC" +:+ "-" +:+ "USDT" in
  _get_exchange_symbol sym "bybit" = "BTC" +:+ "/" +:+ "USDT" +:+ ":USDT"
  ∧ _get_exchange_symbol sym "mexc" = "BTC" +:+ "USDT"
  ∧ _get_exchange_symbol sym "gate" = "BTC" +:+ "_" +:+ "USDT"
  ∧ _get_exchange_symbol sym "bingx" = sym
  ∧ _get_exchange_symbol sym "okx" = "BTC" +:+ "/" +:+ "USDT".
Proof.
  apply (X18_exchange_symbol_formats "BTC" "USDT" "okx");
    first [reflexivity | discriminate].
Defined.

End SymbolsMore.

(** ** The log buffer, the restart loop and the balance *)

Section SupervisorMore.

Import Supervisor.

Lemma emit_keeps_latest buffer all msg :
  buffer = drop (length all - 100) all →
  emit buffer msg = drop (length (all ++ [msg]) - 100) (all ++ [msg]).
Proof.
  intros ->. unfold emit. rewrite !length_app, length_drop. simpl.
  destruct (decide (length all < 100)%nat) as [Hlt|Hge].
  - replace (length all - 100)%nat with 0%nat by lia.
    replace (length all + 1 - 100)%nat with 0%nat by lia.
    rewrite Nat.sub_0_r. rewrite !drop_0.
    destruct (100 <? length all + 1)%nat eqn:E; [|done].
    apply Nat.ltb_lt in E. lia.
  - replace (length all - (length all - 100) + 1)%nat with 101%nat by lia.
    change (100 <? 101)%nat with true. cbn iota.
    rewrite drop_app_le by (rewrite length_drop; lia). rewrite drop_drop.
    replace (length all + 1 - 100)%nat with (length all - 100 + 1)%nat by lia.
    rewrite (drop_app_le all) by lia. done.
Qed.

(** X20.  The log buffer of the dashboard always holds the most recent
    100 messages, in order: after any sequence of [emit] calls on an
    empty buffer it is the sequence without all but its last 100
    entries, so it never grows beyond 100. *)
Theorem X20_log_buffer_keeps_the_last_hundred msgs :
  fold_left emit msgs [] = drop (length msgs - 100) msgs
  ∧ (length (fold_left emit msgs []) ≤ 100)%nat.
Proof.
  assert (fold_left emit msgs [] = drop (length msgs - 100) msgs) as H.
  { induction msgs as [|msg msgs IH] using rev_ind; [done|].
    rewrite fold_left_app. simpl. by apply emit_keeps_latest. }
  split; [exact H|]. rewrite H, length_drop. lia.
Qed.

Lemma restart_step_invariant st r :
  (5 ≤ retry_delay st ≤ 60)%Z →
  Forall (fun d => 5 ≤ d ≤ 60)%Z (sleeps st) →
  (5 ≤ retry_delay (restart_iteration st r) ≤ 60)%Z
  ∧ Forall (fun d => 5 ≤ d ≤ 60)%Z (sleeps (restart_iteration st r)).
Proof.
  intros Hd Hs. unfold restart_iteration.
  destruct (stopped st); [done|]. destruct r; simpl; [done| |done].
  split; [lia|]. apply Forall_app. split; [done|]. by constructor.
Qed.

Lemma restart_stopped results st :
  stopped st = true → fold_left restart_iteration results st = st.
Proof.
  intros H. induction results as [|r results IH]; simpl; [done|].
  unfold restart_iteration at 2. rewrite H. exact IH.
Qed.

Lemma restart_invariant results st :
  (5 ≤ retry_delay st ≤ 60)%Z →
  Forall (fun d => 5 ≤ d ≤ 60)%Z (sleeps st) →
  (5 ≤ retry_delay (fold_left restart_iteration results st) ≤ 60)%Z
  ∧ Forall (fun d => 5 ≤ d ≤ 60)%Z
      (sleeps (fold_left restart_iteration results st)).
Proof.
  revert st. induction results as [|r results IH]; intros st Hd Hs; simpl.
  - done.
  - destruct (restart_step_invariant st r Hd Hs) as [Hd' Hs']. by apply IH.
Qed.

(** X21.  In the restart loop of the program, every sleep before a
    restart lasts between 5 and 60 seconds, and once [KeyboardInterrupt]
    has been seen the loop is over: later results change nothing. *)
Theorem X21_restart_delay_between_5_and_60 results more :
  let st := restart_loop results in
  Forall (fun d => 5 ≤ d ≤ 60)%Z (sleeps st)
  ∧ (5 ≤ retry_delay st ≤ 60)%Z
  ∧ restart_loop (results ++ Interrupted :: more)
    = restart_iteration st Interrupted.
Proof.
  cbv zeta. unfold restart_loop.
  destruct (restart_invariant results
              {| retry_delay := 5; sleeps := []; stopped := false |})
    as (H1 & H2); [simpl; lia | constructor |].
  split; [exact H2|]. split; [exact H1|].
  rewrite fold_left_app. cbn [fold_left].
  set (st := fold_left restart_iteration results _).
  apply restart_stopped. unfold restart_iteration.
  destruct (stopped st) eqn:E; [exact E | reflexivity].
Qed.

Lemma get_balance_from results total :
  fold_left Balances.add_balance results total
  == total + Balances.get_balance results.
Proof.
  unfold Balances.get_balance. revert total.
  induction results as [|r results IH]; intros total; simpl; [ring|].
  rewrite IH. rewrite (IH (Balances.add_balance 0 r)).
  destruct r; simpl; ring.
Qed.

(** X22.  [get_balance] adds up the free balance of the exchanges that
    answered; an exchange whose [fetch_balance] failed, or whose answer
    has no free amount for the currency, counts as zero, and the total of
    a fan-out is the sum of the totals of its parts. *)
Theorem X22_failed_balances_count_as_zero before after free :
  Balances.get_balance (before ++ Balances.FetchFailed :: after)
    == Balances.get_balance (before ++ after)
  ∧ Balances.get_balance (before ++ Balances.Fetched None :: after)
    == Balances.get_balance (before ++ after)
  ∧ Balances.get_balance (before ++ Balances.Fetched (Some free) :: after)
    == Balances.get_balance (before ++ after) + free
  ∧ Balances.get_balance (before ++ after)
    == Balances.get_balance before + Balances.get_balance after.
Proof.
  assert (∀ l1 l2, Balances.get_balance (l1 ++ l2)
                   == Balances.get_balance l1 + Balances.get_balance l2) as Happ.
  { intros l1 l2. unfold Balances.get_balance at 1. rewrite fold_left_app.
    rewrite get_balance_from. reflexivity. }
  assert (∀ r, Balances.get_balance [r] == Balances.add_balance 0 r) as Hone
    by reflexivity.
  repeat split; rewrite ?Happ;
    try (change (?r :: after) with ([r] ++ after); rewrite Happ, Hone; simpl;
         ring).
  reflexivity.
Qed.

End SupervisorMore.

(** ** The parser *)

Section ParserMore.

Import PyStr TelegramMonitor.

Lemma has_dash_suffix base :
  ExchangeSymbols.has_char "-" (base +:+ "-USDT") = true.
Proof.
  induction base as [|c base IH]; [reflexivity|].
  change (String c base +:+ "-USDT") with (String c (base +:+ "-USDT")).
  cbn [ExchangeSymbols.has_char]. rewrite IH. apply orb_true_r.
Qed.

Lemma parsed_symbol_form message sym spread prices :
  _parse_message message = Some (sym, spread, prices) →
  ∃ base, sym = base +:+ "-USDT".
Proof.
  unfold _parse_message. intros H.
  repeat match type of H with
         | (mbind _ ?o) = Some _ =>
             let E := fresh "E" in destruct o eqn:E; simpl in H; [|discriminate]
         | (match ?o with _ => _ end) = Some _ =>
             let E := fresh "E" in destruct o eqn:E; simpl in H; try discriminate
         | (let '(_, _) := ?o in _) = Some _ =>
             let E := fresh "E" in destruct o eqn:E; simpl in H
         end.
  inversion H; subst. by eexists.
Qed.

(** X24.  The symbol of every parsed signal ends in "-USDT".  An entry
    of SYMBOL_BLACKLIST or RISKY_SYMBOLS that contains no dash, as all
    the shipped ones (bare tickers such as AIA or PIGGY), therefore
    never matches a parsed signal: under the shipped configuration no
    signal is blacklisted and no quantity is scaled down. *)
Theorem X24_bare_tickers_never_match_a_signal message sym spread prices :
  _parse_message message = Some (sym, spread, prices) →
  (∃ base, sym = base +:+ "-USDT")
  ∧ (∀ cfg,
       (∀ b, b ∈ Config.SYMBOL_BLACKLIST cfg →
             ExchangeSymbols.has_char "-" b = false) →
       (∀ k v, Config.RISKY_SYMBOLS cfg !! k = Some v →
               ExchangeSymbols.has_char "-" k = false) →
       (sym ∉ Config.SYMBOL_BLACKLIST cfg)
       ∧ Config.RISKY_SYMBOLS cfg !! sym = None)
  ∧ (sym ∉ Config.SYMBOL_BLACKLIST Config.shipped)
  ∧ Config.RISKY_SYMBOLS Config.shipped !! sym = None.
Proof.
  intros Hparse.
  destruct (parsed_symbol_form _ _ _ _ Hparse) as [base ->].
  pose proof (has_dash_suffix base) as Hdash.
  assert (∀ cfg,
            (∀ b, b ∈ Config.SYMBOL_BLACKLIST cfg →
                  ExchangeSymbols.has_char "-" b = false) →
            (∀ k v, Config.RISKY_SYMBOLS cfg !! k = Some v →
                    ExchangeSymbols.has_char "-" k = false) →
            (base +:+ "-USDT" ∉ Config.SYMBOL_BLACKLIST cfg)
            ∧ Config.RISKY_SYMBOLS cfg !! (base +:+ "-USDT") = None) as Hgen.
  { intros cfg Hbl Hrisky. split.
    - intros Hin. specialize (Hbl _ Hin). congruence.
    - destruct (Config.RISKY_SYMBOLS cfg !! (base +:+ "-USDT")) as [v|] eqn:E;
        [|done].
      specialize (Hrisky _ _ E). congruence. }
  split; [by eexists|]. split; [exact Hgen|].
  apply Hgen.
  - intros b Hb. cbn [Config.shipped Config.SYMBOL_BLACKLIST] in Hb.
    apply elem_of_singleton in Hb as ->. reflexivity.
  - intros k v Hk. cbn [Config.shipped Config.RISKY_SYMBOLS] in Hk.
    repeat (apply lookup_insert_Some in Hk as [[<- _]|[_ Hk]];
            [reflexivity|]).
    by rewrite lookup_empty in Hk.
Qed.

Lemma X24_bare_tickers_never_match_a_signal_witness :
  (∃ base, "1-USDT" = base +:+ "-USDT")
  ∧ (∀ cfg,
       (∀ b, b ∈ Config.SYMBOL_BLACKLIST cfg →
             ExchangeSymbols.has_char "-" b = false) →
       (∀ k v, Config.RISKY_SYMBOLS cfg !! k = Some v →
               ExchangeSymbols.has_char "-" k = false) →
       ("1-USDT" ∉ Config.SYMBOL_BLACKLIST cfg)
       ∧ Config.RISKY_SYMBOLS cfg !! "1-USDT" = None)
  ∧ ("1-USDT" ∉ Config.SYMBOL_BLACKLIST Config.shipped)
  ∧ Config.RISKY_SYMBOLS Config.shipped !! "1-USDT" = None.
Proof.
  apply (X24_bare_tickers_never_match_a_signal Examples.signal_message
           "1-USDT" (1411 # 100)
           [("bingx", 2423 # 100000); ("mexc", 553 # 20000)]).
  vm_compute. reflexivity.
Defined.

Lemma upper_char_idempotent c : upper_char (upper_char c) = upper_char c.
Proof. destruct c as [[] [] [] [] [] [] [] []]; reflexivity. Qed.

Lemma upper_char_space c :
  Ascii.eqb (upper_char c) " " = Ascii.eqb c " ".
Proof. destruct c as [[] [] [] [] [] [] [] []]; reflexivity. Qed.

Lemma upper_idempotent s : upper (upper s) = upper s.
Proof.
  unfold upper. induction s as [|c s IH]; simpl; [done|].
  by rewrite upper_char_idempotent, IH.
Qed.

Lemma remove_spaces_upper s :
  remove_spaces (upper (remove_spaces s)) = remove_spaces (upper s).
Proof.
  unfold upper. induction s as [|c s IH]; [done|].
  cbn [remove_spaces map_chars]. rewrite upper_char_space.
  destruct (Ascii.eqb c " ") eqn:E; [exact IH|].
  cbn [remove_spaces map_chars]. rewrite upper_char_space, E. by rewrite IH.
Qed.

(** X25.  The parser ignores letter case and spaces: a message, the
    message in capitals and the message with its spaces removed are
    parsed into the same result. *)
Theorem X25_parser_ignores_case_and_spaces message :
  _parse_message (upper message) = _parse_message message
  ∧ _parse_message (remove_spaces message) = _parse_message message.
Proof.
  unfold _parse_message.
  by rewrite upper_idempotent, remove_spaces_upper.
Qed.

Lemma float_nonneg s q : float s = Some q → 0 <= q.
Proof.
  unfold float. destruct (span is_digit s) as [int_part rest].
  destruct rest as [|c after_dot].
  - destruct (String.eqb int_part ""); [discriminate|].
    intros H. inversion H; subst.
    change 0 with (inject_Z 0). rewrite <- Zle_Qle. lia.
  - destruct (span is_digit after_dot) as [frac_part rest'].
    destruct (_ || _); [discriminate|].
    destruct (_ && _); [discriminate|].
    intros H. inversion H; subst. rewrite Qred_correct.
    unfold Qle. simpl. lia.
Qed.

(** X27.  A parsed signal carries exactly two prices, for two different
    venues, and its spread and both prices are non-negative numbers. *)
Theorem X27_parsed_signal_has_two_venues message sym spread prices :
  _parse_message message = Some (sym, spread, prices) →
  ∃ a pa b pb,
    prices = [(a, pa); (b, pb)] ∧ a ≠ b
    ∧ 0 <= spread ∧ 0 <= pa ∧ 0 <= pb.
Proof.
  unfold _parse_message. intros H.
  repeat match type of H with
         | (mbind _ ?o) = Some _ =>
             let E := fresh "E" in destruct o eqn:E; simpl in H; [|discriminate]
         | (match ?o with _ => _ end) = Some _ =>
             let E := fresh "E" in destruct o eqn:E; simpl in H; try discriminate
         | (let '(_, _) := ?o in _) = Some _ =>
             let E := fresh "E" in destruct o eqn:E; simpl in H
         end.
  inversion H; subst; clear H.
  match goal with
  | Hlen : bool_decide (length (two_prices ?a ?pa ?b ?pb) = 2%nat) = true |- _ =>
      apply bool_decide_eq_true_1 in Hlen; unfold two_prices in *;
      destruct (String.eqb a b) eqn:Eab; [discriminate Hlen|];
      apply String.eqb_neq in Eab;
      exists a, pa, b, pb
  end.
  split; [reflexivity|]. split; [assumption|].
  repeat split; eapply float_nonneg; eassumption.
Qed.

Lemma X27_parsed_signal_has_two_venues_witness :
  ∃ a pa b pb,
    [("bingx", 2423 # 100000); ("mexc", 553 # 20000)] = [(a, pa); (b, pb)]
    ∧ a ≠ b ∧ 0 <= 1411 # 100 ∧ 0 <= pa ∧ 0 <= pb.
Proof.
  apply (X27_parsed_signal_has_two_venues Examples.signal_message "1-USDT").
  vm_compute. reflexivity.
Defined.

End ParserMore.

Section ParserRejects.

Import PyStr TelegramMonitor.

Local Abbreviation has_char := ExchangeSymbols.has_char.

Lemma search_needs_char {A} (m : string → option A) c s :
  (∀ s', has_char c s' = false → m s' = None) →
  has_char c s = false → search m s = None.
Proof.
  intros Hm. induction s as [|d s IH]; intros H; cbn [search].
  - by rewrite (Hm "" H).
  - rewrite (Hm _ H). cbn [ExchangeSymbols.has_char] in H.
    apply orb_false_elim in H as [_ H]. by apply IH.
Qed.

Lemma strip_prefix_has_char pre s r c :
  strip_prefix pre s = Some r → has_char c r = true → has_char c s = true.
Proof.
  revert s. induction pre as [|a pre IH]; intros s H Hr.
  - destruct s; simpl in H; by simplify_eq.
  - destruct s as [|b s]; simpl in H; [discriminate|].
    destruct (Ascii.eqb a b); [|discriminate].
    cbn [ExchangeSymbols.has_char]. rewrite (IH _ H Hr). apply orb_true_r.
Qed.

Lemma span_has_char p s c :
  has_char c (snd (span p s)) = true → has_char c s = true.
Proof.
  induction s as [|d s IH]; cbn [span]; [done|].
  destruct (p d); [|done].
  destruct (span p s) as [a b]. cbn [snd] in *. intros H.
  cbn [ExchangeSymbols.has_char]. rewrite (IH H). apply orb_true_r.
Qed.

Lemma strip_prefix_char c s r :
  strip_prefix (String c "") s = Some r → has_char c s = true.
Proof.
  destruct s as [|b s]; simpl; [discriminate|].
  destruct (Ascii.eqb c b) eqn:E; [|discriminate]. intros _.
  apply Ascii.eqb_eq in E as ->. by rewrite Ascii.eqb_refl.
Qed.

Lemma symbol_at_needs_hash s : has_char "#" s = false → symbol_at s = None.
Proof.
  intros H. unfold symbol_at.
  destruct (strip_prefix "#" s) as [r|] eqn:E; [|done].
  apply strip_prefix_char in E. congruence.
Qed.

Lemma spread_at_needs_percent s :
  has_char "%" s = false → spread_at s = None.
Proof.
  intros H. unfold spread_at.
  destruct (strip_prefix "SPREAD" s) as [r|] eqn:E; [|reflexivity]. cbn [mbind option_bind].
  destruct (span is_colon r) as [x r1] eqn:E1.
  destruct (span is_digit_or_dot r1) as [g r2] eqn:E2.
  destruct (non_empty g); [|reflexivity]. cbn [mbind option_bind].
  destruct (strip_prefix "%" r2) as [r3|] eqn:E3; [|reflexivity]. exfalso.
  apply strip_prefix_char in E3.
  assert (has_char "%" r1 = true) as H1.
  { apply (span_has_char is_digit_or_dot). by rewrite E2. }
  assert (has_char "%" r = true) as H0.
  { apply (span_has_char is_colon). by rewrite E1. }
  pose proof (strip_prefix_has_char _ _ _ _ E H0). congruence.
Qed.

Lemma leg_at_needs_dollar keyword s :
  has_char "$" s = false → leg_at keyword s = None.
Proof.
  intros H. unfold leg_at.
  destruct (strip_prefix keyword s) as [r|] eqn:E; [|reflexivity]. cbn [mbind option_bind].
  destruct (span is_upper r) as [exch r1] eqn:E1.
  destruct (non_empty exch); [|reflexivity]. cbn [mbind option_bind].
  destruct (span is_colon r1) as [x r2] eqn:E2.
  destruct (strip_prefix "$" r2) as [r3|] eqn:E3; [|reflexivity]. exfalso.
  apply strip_prefix_char in E3.
  assert (has_char "$" r1 = true) as H1.
  { apply (span_has_char is_colon). by rewrite E2. }
  assert (has_char "$" r = true) as H0.
  { apply (span_has_char is_upper). by rewrite E1. }
  pose proof (strip_prefix_has_char _ _ _ _ E H0). congruence.
Qed.

Lemma has_char_text c s :
  (∀ d, Ascii.eqb (upper_char d) c = Ascii.eqb d c) →
  Ascii.eqb " " c = false →
  has_char c (remove_spaces (upper s)) = has_char c s.
Proof.
  intros Hup Hsp. unfold upper.
  induction s as [|d s IH]; [done|].
  cbn [map_chars remove_spaces ExchangeSymbols.has_char].
  rewrite upper_char_space.
  destruct (Ascii.eqb d " ") eqn:E.
  - apply Ascii.eqb_eq in E as ->. rewrite Hsp. exact IH.
  - cbn [ExchangeSymbols.has_char]. by rewrite Hup, IH.
Qed.

(** X26.  A message that lacks a hash sign, a percent sign or a dollar
    sign is never a signal: [_parse_message] returns [None] for it. *)
Theorem X26_message_without_marks_is_no_signal message :
  has_char "#" message = false
  ∨ has_char "%" message = false
  ∨ has_char "$" message = false →
  _parse_message message = None.
Proof.
  intros H. unfold _parse_message.
  set (text := remove_spaces (upper message)).
  assert (has_char "#" text = has_char "#" message) as T1.
  { apply has_char_text; [|reflexivity].
    intros d. destruct d as [[] [] [] [] [] [] [] []]; reflexivity. }
  assert (has_char "%" text = has_char "%" message) as T2.
  { apply has_char_text; [|reflexivity].
    intros d. destruct d as [[] [] [] [] [] [] [] []]; reflexivity. }
  assert (has_char "$" text = has_char "$" message) as T3.
  { apply has_char_text; [|reflexivity].
    intros d. destruct d as [[] [] [] [] [] [] [] []]; reflexivity. }
  destruct H as [H|[H|H]].
  - rewrite (search_needs_char symbol_at "#" text symbol_at_needs_hash)
      by congruence. reflexivity.
  - destruct (search symbol_at text); [|reflexivity]. simpl.
    rewrite (search_needs_char spread_at "%" text spread_at_needs_percent)
      by congruence. reflexivity.
  - destruct (search symbol_at text); [|reflexivity]. simpl.
    destruct (search spread_at text); [|reflexivity]. simpl.
    destruct (float _); [|reflexivity]. simpl.
    rewrite (search_needs_char (leg_at "SHORT") "$" text
               (leg_at_needs_dollar "SHORT")) by congruence.
    reflexivity.
Qed.

Lemma X26_message_without_marks_is_no_signal_witness :
  _parse_message "FOO | Spread: 5.00% Short MEXC : $1.05 Long BINGX : $1.00"
  = None.
Proof.
  apply X26_message_without_marks_is_no_signal. left. reflexivity.
Defined.

End ParserRejects.

(** ** Order size *)

Section Sizing.

Import OrderManager.

(** X29.  The size of both entry orders: when either venue declares a
    positive minimum amount, the larger of the two minima, whatever
    TRADE_AMOUNT, LEVERAGE and the price are; otherwise TRADE_AMOUNT x
    LEVERAGE divided by the lower price, which is then not zero.  In both
    cases the size is multiplied by the symbol's entry in RISKY_SYMBOLS
    when it has one. *)
Theorem X29_order_quantity cfg w om sym spread lo hi lp hp p ml mh :
  open_arbitrage_prepare cfg w om sym spread lo hi lp hp = inr (Some p) →
  market w lo sym = Some ml →
  market w hi sym = Some mh →
  let m := py_max (or_zero (amount_min ml)) (or_zero (amount_min mh)) in
  let k := default 1 (Config.RISKY_SYMBOLS cfg !! sym) in
  (0 < m → p_quantity p == m * k)
  ∧ (m <= 0 →
     ¬ lp == 0
     ∧ p_quantity p
       == Config.TRADE_AMOUNT cfg * Config.LEVERAGE cfg / lp * k).
Proof.
  intros Hprep Hml Hmh m k.
  pose proof (prepare_connected _ _ _ _ _ _ _ _ _ _ Hprep) as [Hlo Hhi].
  unfold open_arbitrage_prepare, get_market_details in Hprep.
  rewrite (decide_True _ _ Hlo), (decide_True _ _ Hhi), Hml, Hmh in Hprep.
  destruct (refused cfg om sym); [discriminate|].
  destruct (Qltb (Config.MAX_MIN_NOTIONAL_USD cfg) _); [discriminate|].
  fold m in Hprep. subst k.
  destruct (Qltb_cases 0 m) as [[E Hpos]|[E Hnon]]; rewrite E in Hprep.
  - split.
    + intros _. inversion Hprep; subst; clear Hprep. simpl.
      destruct (Config.RISKY_SYMBOLS cfg !! sym); simpl; ring.
    + intros Hle. exfalso. exact (Qlt_not_le _ _ Hpos Hle).
  - split.
    + intros Hpos. exfalso. exact (Qlt_not_le _ _ Hpos Hnon).
    + intros _. destruct (Qeq_bool lp 0) eqn:Ez; [discriminate|].
      split.
      * intros Hz. apply Qeq_bool_iff in Hz. congruence.
      * inversion Hprep; subst; clear Hprep. simpl.
        destruct (Config.RISKY_SYMBOLS cfg !! sym); simpl; ring.
Qed.

Lemma X29_order_quantity_witness :
  let p := {| p_symbol := "FOO-USDT"; p_spread := 5; p_low_exch := "bingx";
              p_high_exch := "mexc"; p_low_price := 1;
              p_high_price := 105 # 100; p_quantity := 2 |} in
  let m := py_max (or_zero (Some 2)) (or_zero (Some 2)) in
  let k := default 1 (Config.RISKY_SYMBOLS Config.shipped !! "FOO-USDT") in
  (0 < m → p_quantity p == m * k)
  ∧ (m <= 0 →
     ¬ 1 == 0
     ∧ p_quantity p
       == Config.TRADE_AMOUNT Config.shipped * Config.LEVERAGE Config.shipped
          / 1 * k).
Proof.
  intros p.
  apply (X29_order_quantity Config.shipped Examples.calm
           (init Examples.venues) "FOO-USDT" 5 "bingx" "mexc" 1 (105 # 100) p
           {| cost_min := Some 1; amount_min := Some 2 |}
           {| cost_min := Some 1; amount_min := Some 2 |});
    vm_compute; reflexivity.
Defined.

(** X30.  A signal whose lower price is zero, on venues that declare no
    positive minimum amount, makes [open_arbitrage] divide by zero: it
    raises [ZeroDivisionError] before any order is sent, [handle_signal]
    catches it, and nothing but the signal counter changes. *)
Theorem X30_zero_price_is_swallowed cfg w bot sym spread lo hi lp hp ml mh
    prices :
  let om := ArbitrageBot.order_manager bot in
  refused cfg om sym = false →
  lo ∈ exchanges om → hi ∈ exchanges om →
  market w lo sym = Some ml → market w hi sym = Some mh →
  py_max (or_zero (cost_min ml)) (or_zero (cost_min mh))
    <= Config.MAX_MIN_NOTIONAL_USD cfg →
  py_max (or_zero (amount_min ml)) (or_zero (amount_min mh)) <= 0 →
  lp == 0 →
  ArbitrageBot.opening_call cfg sym spread prices
    = Some {| s_symbol := sym; s_spread := spread; s_low_exch := lo;
              s_high_exch := hi; s_low_price := lp; s_high_price := hp |} →
  open_arbitrage cfg w om sym spread lo hi lp hp
    = (om, Raised ZeroDivisionError)
  ∧ ArbitrageBot.handle_signal cfg w bot sym spread prices
    = {| ArbitrageBot.signal_count := S (ArbitrageBot.signal_count bot);
         ArbitrageBot.order_manager := om |}.
Proof.
  intros om Href Hlo Hhi Hml Hmh Hnot Hqty Hz Hcall.
  assert (open_arbitrage cfg w om sym spread lo hi lp hp
          = (om, Raised ZeroDivisionError)) as Hopen.
  { unfold open_arbitrage, open_arbitrage_prepare, get_market_details.
    rewrite Href, (decide_True _ _ Hlo), (decide_True _ _ Hhi), Hml, Hmh.
    apply Qltb_ge in Hnot, Hqty. rewrite Hnot, Hqty.
    apply Qeq_bool_iff in Hz. by rewrite Hz. }
  split; [exact Hopen|].
  unfold ArbitrageBot.handle_signal. rewrite Hcall. cbn [s_symbol s_spread
    s_low_exch s_high_exch s_low_price s_high_price].
  fold om. by rewrite Hopen.
Qed.

Lemma X30_zero_price_is_swallowed_witness :
  let w := {| market := fun _ _ => Some {| cost_min := None; amount_min := None |};
              exchange_create_order := fun _ _ _ _ _ _ => None;
              exchange_cancel_order := fun _ _ _ => true;
              time_time := 1730000000; utcnow := 10;
              get_price := fun _ _ => None |} in
  let bot := {| ArbitrageBot.signal_count := 0;
                ArbitrageBot.order_manager := init Examples.venues |} in
  let prices := [("bingx", 0); ("mexc", 105 # 100)] in
  open_arbitrage Config.shipped w (init Examples.venues) "FOO-USDT" 5
    "bingx" "mexc" 0 (105 # 100)
    = (init Examples.venues, Raised ZeroDivisionError)
  ∧ ArbitrageBot.handle_signal Config.shipped w bot "FOO-USDT" 5 prices
    = {| ArbitrageBot.signal_count := 1;
         ArbitrageBot.order_manager := init Examples.venues |}.
Proof.
  intros w bot prices.
  apply (X30_zero_price_is_swallowed Config.shipped w bot "FOO-USDT" 5
           "bingx" "mexc" 0 (105 # 100)
           {| cost_min := None; amount_min := None |}
           {| cost_min := None; amount_min := None |} prices);
    try reflexivity; vm_compute; try reflexivity; discriminate.
Defined.

(** X23.  [calculate_adaptive_quantity] of the earlier bot raises
    [ZeroDivisionError] exactly for a zero price; otherwise the quantity
    times the price is the adjusted amount times the leverage, and the
    adjusted amount lies between 0.4 and 1.8 times TRADE_AMOUNT times the
    symbol's risk factor. *)
Theorem X23_adaptive_quantity_bounds cfg sym price spread volume_ratio :
  let risk := default 1 (Config.RISKY_SYMBOLS cfg !! sym) in
  let amount := AdaptiveQuantity.adjusted_amount cfg sym spread volume_ratio in
  (price == 0 →
   AdaptiveQuantity.calculate_adaptive_quantity cfg sym price spread
     volume_ratio = inl ZeroDivisionError)
  ∧ (¬ price == 0 →
     ∃ q, AdaptiveQuantity.calculate_adaptive_quantity cfg sym price spread
            volume_ratio = inr q
          ∧ q * price == amount * Config.LEVERAGE cfg)
  ∧ (0 <= Config.TRADE_AMOUNT cfg → 0 <= risk →
     (4 # 10) * (Config.TRADE_AMOUNT cfg * risk) <= amount
     ∧ amount <= (18 # 10) * (Config.TRADE_AMOUNT cfg * risk)).
Proof.
  intros risk amount. split; [|split].
  - intros Hz. unfold AdaptiveQuantity.calculate_adaptive_quantity.
    apply Qeq_bool_iff in Hz. by rewrite Hz.
  - intros Hnz. unfold AdaptiveQuantity.calculate_adaptive_quantity.
    destruct (Qeq_bool price 0) eqn:E.
    + apply Qeq_bool_iff in E. contradiction.
    + eexists. split; [reflexivity|]. fold amount. field. exact Hnz.
  - intros Ht Hr. subst amount risk.
    unfold AdaptiveQuantity.adjusted_amount.
    set (T := Config.TRADE_AMOUNT cfg) in *.
    set (r := default 1 (Config.RISKY_SYMBOLS cfg !! sym)) in *.
    assert (0 <= T * r) as Hx by (by apply Qmult_le_0_compat).
    repeat match goal with
           | |- context [if ?b then _ else _] => destruct b
           end;
      split; lra.
Qed.

End Sizing.

Section CopyToken.

Import PyStr TelegramMonitor.

Lemma strip_prefix_append pre s : strip_prefix pre (pre +:+ s) = Some s.
Proof.
  induction pre as [|a pre IH]; [by destruct s|].
  change (String a pre +:+ s) with (String a (pre +:+ s)).
  cbn [strip_prefix]. by rewrite Ascii.eqb_refl.
Qed.

Lemma span_stops p pre d post :
  fst (span p pre) = pre → p d = false →
  span p (pre +:+ String d post) = (pre, String d post).
Proof.
  intros Hpre Hd. induction pre as [|c pre IH].
  - change ("" +:+ String d post) with (String d post).
    cbn [span]. by rewrite Hd.
  - change (String c pre +:+ String d post)
      with (String c (pre +:+ String d post)).
    cbn [span] in *. destruct (p c); [|discriminate].
    destruct (span p pre) as [a b] eqn:E. cbn [fst] in *.
    inversion Hpre; subst. rewrite IH by reflexivity. reflexivity.
Qed.

Lemma middle_digit_is_no_copy_char d :
  is_digit d = true → d ≠ "0"%char → d ≠ "9"%char →
  is_copy_char d = false ∧ Ascii.eqb ")" d = false.
Proof.
  intros Hd H0 H9.
  destruct d as [[] [] [] [] [] [] [] []];
    first [ split; reflexivity | discriminate Hd
          | exfalso; apply H0; reflexivity | exfalso; apply H9; reflexivity ].
Qed.

Lemma copy_at_head c s : Ascii.eqb c "(" = false → copy_at (String c s) = None.
Proof.
  intros H. rewrite Ascii.eqb_sym in H. unfold copy_at.
  change (strip_prefix "(COPY:" (String c s))
    with (if Ascii.eqb "(" c then strip_prefix "COPY:" s else None).
  by rewrite H.
Qed.

Lemma copy_at_needs_paren s :
  ExchangeSymbols.has_char "(" s = false → copy_at s = None.
Proof.
  destruct s as [|c s]; [reflexivity|]. intros H.
  cbn [ExchangeSymbols.has_char] in H. apply orb_false_elim in H as [H _].
  by apply copy_at_head.
Qed.

Lemma has_char_append c a b :
  ExchangeSymbols.has_char c (a +:+ b)
  = ExchangeSymbols.has_char c a || ExchangeSymbols.has_char c b.
Proof.
  induction a as [|x a IH]; [by destruct b|].
  change (String x a +:+ b) with (String x (a +:+ b)).
  cbn [ExchangeSymbols.has_char]. rewrite IH. apply orb_assoc.
Qed.

Lemma span_all_lacks p c s :
  p c = false → fst (span p s) = s → ExchangeSymbols.has_char c s = false.
Proof.
  intros Hc. induction s as [|x s IH]; [reflexivity|].
  cbn [span ExchangeSymbols.has_char]. destruct (p x) eqn:Ex; [|discriminate].
  destruct (span p s) as [u v]. cbn [fst] in *. intros H.
  inversion H as [Hu]. rewrite Hu in *. rewrite (IH eq_refl).
  destruct (Ascii.eqb x c) eqn:E; [|reflexivity].
  apply Ascii.eqb_eq in E. congruence.
Qed.

Lemma search_skips {A} (m : string → option A) a s :
  (∀ c s', Ascii.eqb c "(" = false → m (String c s') = None) →
  ExchangeSymbols.has_char "(" a = false →
  search m (a +:+ s) = search m s.
Proof.
  intros Hhead. induction a as [|c a IH]; intros Ha.
  - by destruct s.
  - change (String c a +:+ s) with (String c (a +:+ s)).
    cbn [ExchangeSymbols.has_char] in Ha.
    apply orb_false_elim in Ha as [Hc Ha].
    cbn [search]. rewrite (Hhead _ _ Hc). by apply IH.
Qed.

(** X28.  The character class of the COPY pattern is [[A-Z0_9]], not
    [[A-Z0-9]].  In a message whose only opening parenthesis is that of
    a COPY token in which a digit from 1 to 8 follows a run of
    characters of the class, the pattern matches neither at the token
    nor anywhere else, and the symbol of the parsed signal is the one
    made from the "#" token. *)
Theorem X28_copy_token_with_middle_digit_is_ignored message a pre d post :
  remove_spaces (upper message) = a +:+ "(COPY:" +:+ pre +:+ String d post →
  ExchangeSymbols.has_char "(" a = false →
  ExchangeSymbols.has_char "(" post = false →
  fst (span is_copy_char pre) = pre →
  is_digit d = true → d ≠ "0"%char → d ≠ "9"%char →
  copy_at ("(COPY:" +:+ pre +:+ String d post) = None
  ∧ search copy_at (remove_spaces (upper message)) = None
  ∧ ∀ sym spread prices,
      _parse_message message = Some (sym, spread, prices) →
      ∃ raw,
        search symbol_at (remove_spaces (upper message)) = Some raw
        ∧ sym = remove "USDT" (remove "_USDT" raw) +:+ "-USDT".
Proof.
  intros Htext Ha Hpost Hpre Hd H0 H9.
  destruct (middle_digit_is_no_copy_char d Hd H0 H9) as [Hc Hp].
  assert (copy_at ("(COPY:" +:+ pre +:+ String d post) = None) as Hat.
  { unfold copy_at. rewrite strip_prefix_append. cbn [mbind option_bind].
    rewrite (span_stops is_copy_char pre d post Hpre Hc).
    destruct (non_empty pre); [|reflexivity]. cbn [mbind option_bind].
    cbn [strip_prefix]. by rewrite Hp. }
  assert (search copy_at (remove_spaces (upper message)) = None) as Hsearch.
  { rewrite Htext.
    rewrite (search_skips copy_at a _ copy_at_head Ha).
    change ("(COPY:" +:+ pre +:+ String d post)
      with (String "(" ("COPY:" +:+ pre +:+ String d post)) in *.
    cbn [search]. rewrite Hat.
    apply (search_needs_char copy_at "(" _ copy_at_needs_paren).
    rewrite !has_char_append.
    rewrite (span_all_lacks is_copy_char "(" pre eq_refl Hpre).
    cbn [ExchangeSymbols.has_char]. rewrite Hpost.
    destruct d as [[] [] [] [] [] [] [] []];
      first [reflexivity | discriminate Hd]. }
  split; [exact Hat|]. split; [exact Hsearch|].
  intros sym spread prices Hparse.
  unfold _parse_message in Hparse. rewrite Hsearch in Hparse.
  destruct (search symbol_at (remove_spaces (upper message))) as [raw|];
    [|discriminate].
  exists raw. split; [reflexivity|].
  cbn [mbind option_bind default] in Hparse.
  repeat match type of Hparse with
         | (mbind _ ?o) = Some _ =>
             let E := fresh "E" in
             destruct o eqn:E; simpl in Hparse; [|discriminate]
         | (match ?o with _ => _ end) = Some _ =>
             let E := fresh "E" in
             destruct o eqn:E; simpl in Hparse; try discriminate
         | (let '(_, _) := ?o in _) = Some _ =>
             let E := fresh "E" in destruct o eqn:E; simpl in Hparse
         end.
  by inversion Hparse.
Qed.

Lemma X28_copy_token_with_middle_digit_is_ignored_witness :
  let message :=
    "#BTC | Spread: 5.00% (COPY: BTC3L) Short MEXC : $1.05 Long BINGX : $1.00"
  in
  copy_at ("(COPY:" +:+ "BTC" +:+ String "3" "L)SHORTMEXC:$1.05LONGBINGX:$1.00")
  = None
  ∧ search copy_at (remove_spaces (upper message)) = None
  ∧ ∀ sym spread prices,
      _parse_message message = Some (sym, spread, prices) →
      ∃ raw,
        search symbol_at (remove_spaces (upper message)) = Some raw
        ∧ sym = remove "USDT" (remove "_USDT" raw) +:+ "-USDT".
Proof.
  apply (X28_copy_token_with_middle_digit_is_ignored
           "#BTC | Spread: 5.00% (COPY: BTC3L) Short MEXC : $1.05 Long BINGX : $1.00"
           "#BTC|SPREAD:5.00%" "BTC" "3" "L)SHORTMEXC:$1.05LONGBINGX:$1.00");
    first [reflexivity | discriminate].
Defined.

(** The message of the witness is parsed as BTC-USDT, not BTC3L-USDT.
    A COPY token made of characters of the class, where there is one,
    still replaces the "#" token: the limit of the statement above. *)
Lemma copy_token_examples :
  _parse_message
    "#BTC | Spread: 5.00% (COPY: BTC3L) Short MEXC : $1.05 Long BINGX : $1.00"
  = Some ("BTC-USDT", 5, [("bingx", 1); ("mexc", 21 # 20)])
  ∧ _parse_message
      "#BTC | Spread: 5.00% (COPY: BTC3L) (COPY: XYZ) Short MEXC : $1.05 Long BINGX : $1.00"
    = Some ("XYZ-USDT", 5, [("bingx", 1); ("mexc", 21 # 20)])
  ∧ _parse_message
      "#1 | Spread: 5.00% (COPY: BTC_USDT) Short MEXC : $1.05 Long BINGX : $1.00"
    = Some ("BTC-USDT", 5, [("bingx", 1); ("mexc", 21 # 20)]).
Proof. vm_compute. repeat split. Qed.

End CopyToken.
